(** * Wifi-Scanner: the profile and credential retrieval core

    A shallow embedding of
      - [infrastructure/netsh_wifi_provider.py] (listing parser, field-block
        parser, credential classification),
      - [core/scanner_service.py] (the concurrent scan and its merge),
      - the parts of [core/exceptions.py], [core/models.py],
        [core/interfaces.py], [utils/localization_manager.py] and
        [infrastructure/command_executor.py] they rely on,
    followed by the properties of the design specification that concern them.

    Python's [str] is a sequence of Unicode code points, so a string is a
    [list N] here; literals are written as UTF-8 text and decoded by [py]. *)

From stdpp Require Import gmap strings list sorting.
From Stdlib Require Import NArith ZArith Ascii.

(** ** Python strings *)

Module Py.
Local Open Scope N_scope.

Abbreviation str := (list N).

(** Decoding of the UTF-8 bytes of a literal into code points. *)
Fixpoint utf8_decode (bs : list N) : str :=
  match bs with
  | [] => []
  | b :: r =>
      if b <? 128 then b :: utf8_decode r
      else if b <? 224 then
        match r with
        | b1 :: r1 => ((b - 192) * 64 + (b1 - 128)) :: utf8_decode r1
        | _ => []
        end
      else if b <? 240 then
        match r with
        | b1 :: b2 :: r2 =>
            ((b - 224) * 4096 + (b1 - 128) * 64 + (b2 - 128)) :: utf8_decode r2
        | _ => []
        end
      else
        match r with
        | b1 :: b2 :: b3 :: r3 =>
            ((b - 240) * 262144 + (b1 - 128) * 4096 + (b2 - 128) * 64 + (b3 - 128))
              :: utf8_decode r3
        | _ => []
        end
  end.

Fixpoint bytes_of_string (s : string) : list N :=
  match s with
  | EmptyString => []
  | String a r => N_of_ascii a :: bytes_of_string r
  end.

Definition py (s : string) : str := utf8_decode (bytes_of_string s).

(** [str.isspace] on one code point; the same set is what [str.strip]
    removes and what [\s] matches in a [str] pattern. *)
Definition isspace (c : N) : bool :=
  ((9 <=? c) && (c <=? 13)) || ((28 <=? c) && (c <=? 32))
  || (c =? 133) || (c =? 160) || (c =? 5760)
  || ((8192 <=? c) && (c <=? 8202))
  || (c =? 8232) || (c =? 8233) || (c =? 8239) || (c =? 8287) || (c =? 12288).

(** The line boundaries of [str.splitlines]. *)
Definition is_linebreak (c : N) : bool :=
  ((10 <=? c) && (c <=? 13)) || ((28 <=? c) && (c <=? 30))
  || (c =? 133) || (c =? 8232) || (c =? 8233).

Fixpoint lstrip (s : str) : str :=
  match s with
  | [] => []
  | c :: r => if isspace c then lstrip r else s
  end.

Definition rstrip (s : str) : str := rev (lstrip (rev s)).

(** [s.strip()] *)
Definition strip (s : str) : str := lstrip (rstrip s).

(** [s.splitlines()]: [cur] is the line being read, reversed.  A carriage
    return followed by a line feed is one boundary; a last line without a
    terminator is kept when it is not empty. *)
Fixpoint splitlines_from (cur : str) (s : str) : list str :=
  match s with
  | [] => match cur with [] => [] | _ => [rev cur] end
  | c :: r =>
      if is_linebreak c then
        rev cur ::
          (if c =? 13 then
             match r with
             | d :: r' => if d =? 10 then splitlines_from [] r' else splitlines_from [] r
             | [] => splitlines_from [] r
             end
           else splitlines_from [] r)
      else splitlines_from (c :: cur) r
  end.

Definition splitlines (s : str) : list str := splitlines_from [] s.

(** [s.startswith(p)], returning what follows the prefix. *)
Fixpoint strip_prefix (p s : str) : option str :=
  match p, s with
  | [], _ => Some s
  | a :: p', b :: s' => if a =? b then strip_prefix p' s' else None
  | _ :: _, [] => None
  end.

(** [needle in hay] *)
Fixpoint str_in (needle hay : str) : bool :=
  match strip_prefix needle hay with
  | Some _ => true
  | None => match hay with [] => false | _ :: r => str_in needle r end
  end.

(** [a <= b] on strings: lexicographic on code points. *)
Fixpoint str_le (a b : str) : bool :=
  match a, b with
  | [], _ => true
  | _ :: _, [] => false
  | x :: a', y :: b' => if x <? y then true else if y <? x then false else str_le a' b'
  end.

End Py.
Export Py.


(** ** The fragment of Python's [re] used by the provider

  Both patterns of the provider are sequences of literals, alternatives of
  literals, and starred character classes, some of them capturing.  The
  matcher below is the backtracking search of [re] on that fragment: a
  greedy star tries the longest run first, a lazy one the shortest, an
  alternation its branches from left to right, and the first complete
  match found is the one reported. *)

Module Re.
Local Open Scope N_scope.

Inductive charclass :=
| Space   (* backslash-s *)
| Dot.    (* the dot without DOTALL: anything but a line feed *)

Definition in_class (cls : charclass) (c : N) : bool :=
  match cls with
  | Space => isspace c
  | Dot => negb (c =? 10)
  end.

Inductive item :=
| Lit (s : str)                            (* literal text *)
| Alt (alts : list str)                    (* non-capturing alternation of literals *)
| Star (cls : charclass)                   (* greedy star of a class, not capturing *)
| Group (greedy : bool) (cls : charclass). (* capturing group around a greedy or lazy star *)

Record pattern := { items : list item; ignorecase : bool }.

Definition ascii_lower (c : N) : N :=
  if (65 <=? c) && (c <=? 90) then c + 32 else c.

(** One pattern character against one subject character.  The pattern
    characters of this program are ASCII; under IGNORECASE an ASCII letter
    matches its two cases and the few other code points whose simple
    lower-case form [re] identifies with it (dotted and dotless i for [i],
    long s for [s], the Kelvin sign for [k]). *)
Definition char_match (ic : bool) (p c : N) : bool :=
  if ic then
    let lo := ascii_lower p in
    if (97 <=? lo) && (lo <=? 122) then
      (ascii_lower c =? lo)
      || ((lo =? 105) && ((c =? 304) || (c =? 305)))
      || ((lo =? 115) && (c =? 383))
      || ((lo =? 107) && (c =? 8490))
    else c =? p
  else c =? p.

(** A literal at the start of the subject; what follows it. *)
Fixpoint lit_prefix (ic : bool) (l s : str) : option str :=
  match l, s with
  | [], _ => Some s
  | p :: l', c :: s' => if char_match ic p c then lit_prefix ic l' s' else None
  | _ :: _, [] => None
  end.

Section Star.
Context {R : Type} (cls : charclass) (k : str → str → option R).

(** A greedy star, then the continuation [k matched rest]; longest run first. *)
Fixpoint greedy (acc : str) (s : str) : option R :=
  match s with
  | c :: r =>
      if in_class cls c then
        match greedy (c :: acc) r with
        | Some x => Some x
        | None => k (rev acc) s
        end
      else k (rev acc) s
  | [] => k (rev acc) []
  end.

(** A lazy star, then the continuation; shortest run first. *)
Fixpoint lazy (acc : str) (s : str) : option R :=
  match k (rev acc) s with
  | Some x => Some x
  | None =>
      match s with
      | c :: r => if in_class cls c then lazy (c :: acc) r else None
      | [] => None
      end
  end.
End Star.

(** The match of a sequence of items at the start of [s]; the result is
    the list of captured groups, [group(1)] first. *)
Fixpoint run (ic : bool) (its : list item) (caps : list str) (s : str)
  : option (list str) :=
  match its with
  | [] => Some (rev caps)
  | Lit l :: rest =>
      match lit_prefix ic l s with
      | Some r => run ic rest caps r
      | None => None
      end
  | Alt alts :: rest =>
      (fix branches (alts : list str) : option (list str) :=
         match alts with
         | [] => None
         | a :: alts' =>
             match
               match lit_prefix ic a s with
               | Some r => run ic rest caps r
               | None => None
               end
             with
             | Some x => Some x
             | None => branches alts'
             end
         end) alts
  | Star cls :: rest => greedy cls (fun _ r => run ic rest caps r) [] s
  | Group true cls :: rest => greedy cls (fun m r => run ic rest (m :: caps) r) [] s
  | Group false cls :: rest => lazy cls (fun m r => run ic rest (m :: caps) r) [] s
  end.

(** [re.match(p, s)] and [p.match(s)]: at the start of the subject only. *)
Definition re_match (p : pattern) (s : str) : option (list str) :=
  run (ignorecase p) (items p) [] s.

(** [p.search(s)]: the first position from the left with a match. *)
Fixpoint search (p : pattern) (s : str) : option (list str) :=
  match re_match p s with
  | Some m => Some m
  | None => match s with [] => None | _ :: r => search p r end
  end.

(** [m.group(n)] for [n >= 1]. *)
Definition group (n : nat) (m : list str) : str := nth (pred n) m [].

End Re.

(** ** core/exceptions.py, and the other exceptions the core meets *)

Module exceptions.

(** The exceptions are subclasses of [Exception]; [OtherException] stands
    for any further subclass of [Exception] (an [OSError] from the process
    spawn, an [AttributeError], ...), named by its type.  The text of a
    [ScannerServiceException] is derived from its cause and is not kept. *)
Inductive exn : Type :=
| ScannerServiceException (cause : exn)
| ProfileNotFoundError (message : str)
| PasswordNotFoundError (profile_name message : str)
| AdminRightsRequiredError (profile_name message : str)  (* a PasswordNotFoundError *)
| OpenNetworkException (profile_name : str)
| CalledProcessError (returncode : Z) (cmd : list str) (stdout stderr : str)
| OtherException (type_name : str).

(** A call that returns a value or raises. *)
Inductive result (A : Type) : Type :=
| Return (a : A)
| Raise (e : exn).
Global Arguments Return {A} a.
Global Arguments Raise {A} e.

End exceptions.
Export exceptions.

(** ** core/models.py *)

Module models.

Record NetworkCredential := {
  name : str;
  password : option str;
  interface : str
}.

End models.
Export models.

(** ** core/interfaces.py *)

Module interfaces.

(** The abstract class [WiFiProvider]: its two abstract methods.  An
    implementation asks the operating system, so two calls of
    [get_password] for the same profile need not answer alike:
    [get_password self call profile] is what the call number [call] returns
    or raises.  The calls of a scan are numbered in the order in which it
    submits them, one per entry of the listing. *)
Class WiFiProvider (P : Type) := {
  list_profiles : P → result (list str);
  get_password : P → nat → str → result (option str)
}.

End interfaces.

(** ** utils/localization_manager.py *)

Module localization_manager.

(** The loaded table of translations.  [str_format template kwargs] stands
    for Python's [str.format] applied to [template] with the keyword
    arguments [kwargs]; it is not part of the repository, and returns the
    formatted text or raises. *)
Record LocalizationManager := {
  translations : gmap str str;
  str_format : str → list (str * str) → result str
}.

Definition get_string (self : LocalizationManager) (key : str)
    (kwargs : list (str * str)) : str :=
  let s := default (py "MISSING_TRANSLATION: " ++ key) (translations self !! key) in
  match kwargs with
  | [] => s
  | _ :: _ =>
      match str_format self s kwargs with
      | Return s' => s'
      | Raise _ => s
      end
  end.

End localization_manager.

(** ** infrastructure/command_executor.py *)

Module command_executor.

(** [run] spawns the utility and returns its standard output or raises
    [CalledProcessError]; the process is outside the program, so an
    executor is the function from command lines to what they produce. *)
Record CommandExecutor := {
  run : list str → result str
}.

End command_executor.

(** ** infrastructure/netsh_wifi_provider.py *)

Module netsh_wifi_provider.
Import localization_manager command_executor.

Definition NETSH_KEYS : gmap str (list str) :=
  list_to_map [
    (py "profile_not_found", [py "is not found"; py "no se encuentra"]);
    (py "key_content", [py "Key Content"; py "Contenido de la clave"]);
    (py "security_key", [py "Security key"; py "Clave de seguridad"]);
    (py "security_key_absent", [py "Absent"; py "Ausente"]);
    (py "authentication", [py "Authentication"; py "Autenticación"]);
    (py "auth_open", [py "Open"; py "Abierta"])
  ].

Record NetshWiFiProvider := {
  command_executor : CommandExecutor;
  localization_manager : LocalizationManager;
  _interface_name : str
}.

Definition __init__ (command_executor : CommandExecutor)
    (localization_manager : LocalizationManager) : NetshWiFiProvider :=
  {| command_executor := command_executor;
     localization_manager := localization_manager;
     _interface_name := py "Wi-Fi" |}.

Definition get_interface_name (self : NetshWiFiProvider) : str :=
  _interface_name self.

Definition profile_regex : Re.pattern :=
  {| Re.items :=
       [ Re.Star Re.Dot;
         Re.Alt [ py "All User Profile";
                  py "Todos los perfiles de usuario";
                  py "Perfil de todos los usuarios" ];
         Re.Star Re.Space; Re.Lit (py ":"); Re.Star Re.Space;
         Re.Group true Re.Dot ];
     Re.ignorecase := true |}.

(** The loop of [list_profiles] over the lines of the listing. *)
Definition list_profiles_loop (profiles : list str) (line : str) : list str :=
  match Re.search profile_regex line with
  | Some m =>
      let profile_name := strip (Re.group 1 m) in
      match profile_name with
      | [] => profiles
      | _ :: _ => profiles ++ [profile_name]
      end
  | None => profiles
  end.

Definition parse_profiles (output : str) : list str :=
  foldl list_profiles_loop [] (splitlines output).

Definition list_profiles (self : NetshWiFiProvider) : result (list str) :=
  match run (command_executor self) [py "netsh"; py "wlan"; py "show"; py "profiles"] with
  | Return output => Return (parse_profiles output)
  | Raise e => Raise e
  end.

Definition field_regex : Re.pattern :=
  {| Re.items :=
       [ Re.Star Re.Space; Re.Group false Re.Dot; Re.Star Re.Space;
         Re.Lit (py ":"); Re.Star Re.Space; Re.Group true Re.Dot ];
     Re.ignorecase := false |}.

Definition _parse_netsh_output_loop (parsed_data : gmap str str) (line : str)
  : gmap str str :=
  match Re.re_match field_regex line with
  | Some m =>
      let key := strip (Re.group 1 m) in
      let value := strip (Re.group 2 m) in
      <[key := value]> parsed_data
  | None => parsed_data
  end.

Definition _parse_netsh_output (output : str) : gmap str str :=
  foldl _parse_netsh_output_loop ∅ (splitlines output).

(** [for key in keys: if key in details: return details[key]] *)
Fixpoint first_present (keys : list str) (details : gmap str str) : option str :=
  match keys with
  | [] => None
  | key :: keys' =>
      match details !! key with
      | Some v => Some v
      | None => first_present keys' details
      end
  end.

(** [any(val in text for val in vals)] *)
Definition any_in (vals : list str) (text : str) : bool :=
  existsb (fun val => str_in val text) vals.

(** The loop over the security-key labels: true when it raises
    [OpenNetworkException]. *)
Fixpoint security_absent (keys : list str) (details : gmap str str) : bool :=
  match keys with
  | [] => false
  | key :: keys' =>
      match details !! key with
      | Some v =>
          if any_in (NETSH_KEYS !!! py "security_key_absent") v then true
          else security_absent keys' details
      | None => security_absent keys' details
      end
  end.

(** [next((key for key in keys if key in details), None)] *)
Fixpoint next_key (keys : list str) (details : gmap str str) : option str :=
  match keys with
  | [] => None
  | key :: keys' =>
      match details !! key with
      | Some _ => Some key
      | None => next_key keys' details
      end
  end.

(** The part of [get_password] that follows the parsing of the output:
    the classification of the parsed fields of one profile. *)
Definition classify (self : NetshWiFiProvider) (details : gmap str str)
    (profile : str) : result (option str) :=
  match first_present (NETSH_KEYS !!! py "key_content") details with
  | Some v => Return (Some v)
  | None =>
      if security_absent (NETSH_KEYS !!! py "security_key") details then
        Raise (OpenNetworkException profile)
      else
        let admin :=
          Raise (AdminRightsRequiredError profile
                   (get_string (localization_manager self)
                      (py "error_password_not_found_admin_required")
                      [(py "profile_name", profile)])) in
        match next_key (NETSH_KEYS !!! py "authentication") details with
        | Some ((_ :: _) as auth_type_key) =>
            let auth_type := details !!! auth_type_key in
            if any_in (NETSH_KEYS !!! py "auth_open") auth_type then
              Raise (OpenNetworkException profile)
            else admin
        | Some [] | None => admin
        end
  end.

(** [get_password]; the two branches of the handler of
    [CalledProcessError] differ in what they log only, and both return
    [None]. *)
Definition get_password (self : NetshWiFiProvider) (profile : str)
  : result (option str) :=
  match run (command_executor self)
          [py "netsh"; py "wlan"; py "show"; py "profile"; profile; py "key=clear"] with
  | Raise (CalledProcessError _ _ _ _) => Return None
  | Raise e => Raise e
  | Return output => classify self (_parse_netsh_output output) profile
  end.

(** The netsh provider as a [WiFiProvider]; what a call answers is what the
    executor answers to its command line. *)
#[global] Instance NetshWiFiProvider_provider : interfaces.WiFiProvider NetshWiFiProvider :=
  {| interfaces.list_profiles := list_profiles;
     interfaces.get_password := fun self _ profile => get_password self profile |}.

End netsh_wifi_provider.

(** ** core/scanner_service.py *)

Module scanner_service.
Import interfaces localization_manager.

Record WiFiScannerService (P : Type) := {
  provider : P;
  localization_manager : LocalizationManager
}.
Global Arguments provider {P} _.
Global Arguments localization_manager {P} _.

(** [as_completed]: the pending futures are handed out one by one, each
    exactly once, in the order in which they finish.  That order is not
    the program's choice; it is the schedule [sched], whose next number
    selects, among the futures still pending, the one that finishes next
    (a missing number counts as 0).  Every order is the order of some
    schedule, also the orders that a pool of ten workers cannot produce. *)
Fixpoint complete {A : Type} (fuel : nat) (pending : list A) (sched : list nat)
  : list A :=
  match fuel, pending with
  | S fuel', d :: _ =>
      let k := (hd 0 sched mod length pending)%nat in
      nth k pending d :: complete fuel' (delete k pending) (tl sched)
  | _, _ => []
  end.

Definition as_completed {A : Type} (pending : list A) (sched : list nat) : list A :=
  complete (length pending) pending sched.

(** The body of the loop over the completed futures: the credential
    appended for one future, from its result or its exception. *)
Definition credential_of (loc : LocalizationManager)
    (future : result (option str)) (profile_name : str) : NetworkCredential :=
  match future with
  | Return password =>
      {| name := profile_name; password := password; interface := py "WiFi" |}
  | Raise (OpenNetworkException _) =>
      {| name := profile_name;
         password := Some (get_string loc (py "status_open_network") []);
         interface := py "WiFi" |}
  | Raise (AdminRightsRequiredError _ message)
  | Raise (PasswordNotFoundError _ message) =>
      {| name := profile_name; password := Some message; interface := py "WiFi" |}
  | Raise _ =>
      {| name := profile_name;
         password := Some (get_string loc (py "status_general_error") []);
         interface := py "WiFi" |}
  end.

(** [credentials.sort(key=lambda x: x.name)]: [list.sort] is stable, and a
    stable sort has one possible result, the one of this insertion sort. *)
Fixpoint insert_by_name (c : NetworkCredential) (l : list NetworkCredential)
  : list NetworkCredential :=
  match l with
  | [] => [c]
  | d :: l' => if str_le (name c) (name d) then c :: l else d :: insert_by_name c l'
  end.

Definition sort_by_name (l : list NetworkCredential) : list NetworkCredential :=
  foldr insert_by_name [] l.

(** [scan], under the schedule [sched] of the completions.  One call of
    [get_password] is submitted per entry of the listing, numbered by the
    position of the entry; an entry listed twice is looked up twice. *)
Definition scan {P : Type} `{WiFiProvider P} (self : WiFiScannerService P)
    (sched : list nat) : result (list NetworkCredential) :=
  match list_profiles (provider self) with
  | Raise e => Raise (ScannerServiceException e)
  | Return profiles =>
      match profiles with
      | [] => Return []
      | _ :: _ =>
          let future_to_profile :=
            imap (fun call profile => (get_password (provider self) call profile, profile))
              profiles in
          let credentials :=
            foldl (fun credentials '(future, profile_name) =>
                     credentials ++ [credential_of (localization_manager self) future profile_name])
                  [] (as_completed future_to_profile sched) in
          Return (sort_by_name credentials)
      end
  end.

End scanner_service.


(** ** The vocabulary of the specification

    The notions in which the design specification states the behaviour of
    the core, written without reference to how the code computes them. *)

Module spec.
Import netsh_wifi_provider.

(** [val] occurs in [text] as a substring. *)
Definition occurs_in (val text : str) : Prop :=
  ∃ pre post, text = pre ++ val ++ post.

(** [text] contains one of the value variants. *)
Definition contains_variant (vals : list str) (text : str) : Prop :=
  ∃ val, val ∈ vals ∧ occurs_in val text.

(** None of the labels is a key of the mapping. *)
Definition no_label (labels : list str) (details : gmap str str) : Prop :=
  ∀ k, k ∈ labels → details !! k = None.

(** [k] is the first of the labels, in the order of the table, that is a
    key of the mapping. *)
Definition first_label (labels : list str) (details : gmap str str) (k : str) : Prop :=
  ∃ l1 l2, labels = l1 ++ k :: l2 ∧ no_label l1 details ∧ is_Some (details !! k).

Definition key_content_labels : list str := [py "Key Content"; py "Contenido de la clave"].
Definition security_key_labels : list str := [py "Security key"; py "Clave de seguridad"].
Definition absent_values : list str := [py "Absent"; py "Ausente"].
Definition authentication_labels : list str := [py "Authentication"; py "Autenticación"].
Definition open_values : list str := [py "Open"; py "Abierta"].

(** Some security-key label is present with a value that contains an
    absent-value variant. *)
Definition security_absent_signal (details : gmap str str) : Prop :=
  ∃ k v, k ∈ security_key_labels ∧ details !! k = Some v
         ∧ contains_variant absent_values v.

(** Some authentication label is present with a value that contains an
    open-value variant. *)
Definition auth_open_signal (details : gmap str str) : Prop :=
  ∃ k v, k ∈ authentication_labels ∧ details !! k = Some v
         ∧ contains_variant open_values v.

(** The first authentication label present has a value that contains an
    open-value variant. *)
Definition first_auth_open_signal (details : gmap str str) : Prop :=
  ∃ k v, first_label authentication_labels details k ∧ details !! k = Some v
         ∧ contains_variant open_values v.

(** The message of [AdminRightsRequiredError] for a profile. *)
Definition admin_message (self : NetshWiFiProvider) (profile : str) : str :=
  localization_manager.get_string (localization_manager self)
    (py "error_password_not_found_admin_required") [(py "profile_name", profile)].

(** A line of the form label, colon, value: the text before its first
    colon and the text after it. *)
Fixpoint split_colon (line : str) : option (str * str) :=
  match line with
  | [] => None
  | c :: r =>
      if (c =? 58)%N then Some ([], r)
      else match split_colon r with
           | Some (label, value) => Some (c :: label, value)
           | None => None
           end
  end.

(** The entry that such a line contributes: label and value, both trimmed. *)
Definition field_entry (line : str) : option (str * str) :=
  match split_colon line with
  | Some (label, value) => Some (strip label, strip value)
  | None => None
  end.

(** The labels of the lines that name a profile in a listing. *)
Definition profile_labels : list str :=
  [py "All User Profile"; py "Todos los perfiles de usuario";
   py "Perfil de todos los usuarios"].

(** The text [s] begins with the label, in any case, then optional space
    and a colon: what follows the colon. *)
Definition after_label (label s : str) : option str :=
  match Re.lit_prefix true label s with
  | Some r =>
      match lstrip r with
      | c :: rest => if (c =? 58)%N then Some rest else None
      | [] => None
      end
  | None => None
  end.

(** The same for the first of the labels that fits. *)
Fixpoint label_colon (labels : list str) (s : str) : option str :=
  match labels with
  | [] => None
  | label :: labels' =>
      match after_label label s with
      | Some rest => Some rest
      | None => label_colon labels' s
      end
  end.

(** What follows the colon of the last place of the line where a label
    stands; [None] when the line has no such place. *)
Fixpoint last_label (line : str) : option str :=
  match line with
  | [] => label_colon profile_labels []
  | _ :: r =>
      match last_label r with
      | Some rest => Some rest
      | None => label_colon profile_labels line
      end
  end.

(** The name captured from a line that matches a label: what follows the
    colon, trimmed. *)
Definition captured_name (line : str) : option str :=
  strip <$> last_label line.

(** The captured name when it is not empty. *)
Definition profile_name_of (line : str) : option str :=
  match captured_name line with
  | Some (c :: n) => Some (c :: n)
  | _ => None
  end.




(** The credential that [scan] builds for an entry of the listing: from
    what the call number [call], the lookup of that entry, returns or
    raises. *)
Definition row {P : Type} `{interfaces.WiFiProvider P}
    (self : scanner_service.WiFiScannerService P) (call : nat) (profile_name : str)
  : NetworkCredential :=
  scanner_service.credential_of (scanner_service.localization_manager self)
    (interfaces.get_password (scanner_service.provider self) call profile_name) profile_name.

(** The lookups of a scan: one per entry of the listing, with its number. *)
Definition lookups (profiles : list str) : list (nat * str) := imap pair profiles.

(** The row of a lookup. *)
Definition row_of {P : Type} `{interfaces.WiFiProvider P}
    (self : scanner_service.WiFiScannerService P) (lookup : nat * str)
  : NetworkCredential :=
  row self lookup.1 lookup.2.


End spec.

(** *** The English equivalent of a mapping in Spanish *)

Module locale.
Import netsh_wifi_provider.

(** A value that is a variant of one language, in the other language. *)
Definition translate_value (from to : str) (v : str) : str :=
  if decide (v = from) then to else v.

(** The entry under the label [k_from], moved to the label [k_to] with its
    value translated. *)
Definition relabel (k_from k_to : str) (f : str → str) (m : gmap str str)
  : gmap str str :=
  match m !! k_from with
  | Some v => <[k_to := f v]> (delete k_from m)
  | None => m
  end.

(** The mapping that says in English what [m] says in Spanish: the three
    labels of the table and the two values of the table are replaced by
    their English variants, everything else is kept. *)
Definition english_equivalent (m : gmap str str) : gmap str str :=
  relabel (py "Autenticación") (py "Authentication") (translate_value (py "Abierta") (py "Open"))
    (relabel (py "Clave de seguridad") (py "Security key") (translate_value (py "Ausente") (py "Absent"))
       (relabel (py "Contenido de la clave") (py "Key Content") id m)).

(** The mapping has none of the English labels of the table. *)
Definition no_english_label (m : gmap str str) : Prop :=
  m !! py "Key Content" = None ∧ m !! py "Security key" = None
  ∧ m !! py "Authentication" = None.

End locale.

(** ** Sample inputs *)

Module sample.
Import localization_manager command_executor.

(** Replacement of every occurrence of [old] (not empty) by [new]. *)
Fixpoint replace (fuel : nat) (old new s : str) : str :=
  match fuel, s with
  | S fuel', c :: s' =>
      match strip_prefix old s with
      | Some r => new ++ replace fuel' old new r
      | None => c :: replace fuel' old new s'
      end
  | _, _ => s
  end.

(** What [str.format] does with keyword arguments on a template whose only
    braces are replacement fields that name them. *)
Definition format_fields (template : str) (kwargs : list (str * str)) : result str :=
  Return (foldl (fun t '(k, v) => replace (length t) (py "{" ++ k ++ py "}") v t)
            template kwargs).

Definition english : LocalizationManager :=
  {| translations :=
       list_to_map [
         (py "status_open_network", py "Open network (no password)");
         (py "status_general_error", py "Error");
         (py "error_password_not_found_admin_required",
          py "Password for '{profile_name}' not found (admin rights required)") ];
     str_format := format_fields |}.

(** A host with three saved profiles, listed in Spanish: one whose key is
    shown, one open, and one that is gone when it is queried. *)
Definition host (cmd : list str) : result str :=
  if decide (cmd = [py "netsh"; py "wlan"; py "show"; py "profiles"]) then
    Return (py "Perfiles en la interfaz Wi-Fi:

    Perfil de todos los usuarios     : MiRed1
    Perfil de todos los usuarios     : MiRed Espacio
    Perfil de todos los usuarios     : Casa")
  else if decide (cmd = [py "netsh"; py "wlan"; py "show"; py "profile"; py "Casa"; py "key=clear"]) then
    Return (py "    Autenticación             : WPA2-Personal
    Clave de seguridad            : Presente
    Contenido de la clave             : MiContraseñaSecreta123")
  else if decide (cmd = [py "netsh"; py "wlan"; py "show"; py "profile"; py "MiRed1"; py "key=clear"]) then
    Return (py "    Autenticación             : Abierta
    Clave de seguridad            : Ausente")
  else
    Raise (CalledProcessError 1 cmd (py "Profile is not found on the system.") []).

Definition executor : CommandExecutor := {| run := host |}.

Definition netsh : netsh_wifi_provider.NetshWiFiProvider :=
  netsh_wifi_provider.__init__ executor english.

Definition service : scanner_service.WiFiScannerService netsh_wifi_provider.NetshWiFiProvider :=
  {| scanner_service.provider := netsh; scanner_service.localization_manager := english |}.

(** A provider that answers from a script, as a test double does: what the
    listing returns, and what each call of [get_password] returns or raises,
    by the number of the call ([None] beyond the script). *)
Record ScriptedProvider := {
  listing : result (list str);
  answers : list (result (option str))
}.

#[global] Instance ScriptedProvider_provider : interfaces.WiFiProvider ScriptedProvider :=
  {| interfaces.list_profiles := listing;
     interfaces.get_password := fun self call _ => default (Return None) (answers self !! call) |}.



End sample.

(** ** core/report_service.py *)

Module report_service.

(** What an f-string writes for the password of a credential: the text, or
    "None" when there is none. *)
Definition str_of_password (password : option str) : str :=
  match password with
  | Some s => s
  | None => py "None"
  end.

(** One line of the display: name, " = ", password, line feed. *)
Definition credential_line (cred : NetworkCredential) : str :=
  name cred ++ py " = " ++ str_of_password (password cred) ++ [10%N].

Definition format_credentials_to_string (credentials : list NetworkCredential) : str :=
  match credentials with
  | [] => []
  | _ :: _ => concat (credential_line <$> credentials)
  end.

End report_service.

(** ** application/controller.py *)

Module controller.
Import localization_manager.

(** [validator.is_admin()]: what the system answers. *)
Record WindowsSystemValidator := {
  is_admin : bool
}.

Record Controller (P : Type) := {
  localization_manager : LocalizationManager;
  is_scanning : bool;
  validator : WindowsSystemValidator;
  scanner_service : scanner_service.WiFiScannerService P
}.
Global Arguments localization_manager {P} _.
Global Arguments is_scanning {P} _.
Global Arguments validator {P} _.
Global Arguments scanner_service {P} _.

(** [self.is_scanning = b] *)
Definition set_is_scanning {P : Type} (b : bool) (self : Controller P) : Controller P :=
  {| localization_manager := localization_manager self;
     is_scanning := b;
     validator := validator self;
     scanner_service := scanner_service self |}.

(** The calls that reach the two callbacks, in the order they are made. *)
Inductive callback_call :=
| on_success_called (credentials : list NetworkCredential)
| on_error_called (error_message : str).

(** What a method leaves behind: the controller, the calls it made to the
    callbacks, whether it started a worker thread, and the exception that
    leaves it, if any. *)
Record effect (P : Type) := {
  after : Controller P;
  calls : list callback_call;
  started : bool;
  raised : option exn
}.
Global Arguments after {P} _.
Global Arguments calls {P} _.
Global Arguments started {P} _.
Global Arguments raised {P} _.

Definition raised_by (r : result unit) : option exn :=
  match r with
  | Return _ => None
  | Raise e => Some e
  end.

(** [start_scan_thread]; the callbacks are functions that return or raise.
    The worker thread it starts is not run here: [started] tells that it
    was started. *)
Definition start_scan_thread {P : Type} (self : Controller P)
    (on_success : list NetworkCredential → result unit)
    (on_error : str → result unit) : effect P :=
  if is_scanning self then
    {| after := self; calls := []; started := false; raised := None |}
  else if negb (is_admin (validator self)) then
    let message := get_string (localization_manager self) (py "admin_privileges_required") [] in
    {| after := self; calls := [on_error_called message]; started := false;
       raised := raised_by (on_error message) |}
  else
    {| after := set_is_scanning true self; calls := []; started := true; raised := None |}.

(** [_scan_worker], under the schedule [sched] of the completions of the
    lookups of its scan. *)
Definition _scan_worker {P : Type} `{interfaces.WiFiProvider P} (self : Controller P)
    (sched : list nat)
    (on_success : list NetworkCredential → result unit)
    (on_error : str → result unit) : effect P :=
  let message :=
    get_string (localization_manager self) (py "error_occurred_during_scan") [] in
  let finally := set_is_scanning false self in
  match scanner_service.scan (scanner_service self) sched with
  | Return credentials =>
      match on_success credentials with
      | Return _ =>
          {| after := finally; calls := [on_success_called credentials];
             started := false; raised := None |}
      | Raise _ =>
          {| after := finally;
             calls := [on_success_called credentials; on_error_called message];
             started := false; raised := raised_by (on_error message) |}
      end
  | Raise _ =>
      {| after := finally; calls := [on_error_called message];
         started := false; raised := raised_by (on_error message) |}
  end.

(** [format_credentials_for_display] *)
Definition format_credentials_for_display {P : Type} (self : Controller P)
    (credentials : list NetworkCredential) : str :=
  report_service.format_credentials_to_string credentials.

(** A session of the controller: the user interface asks for a scan, or the
    worker thread that is running comes to its end.  The requests come from
    the loop of the user interface, one at a time. *)
Inductive event :=
| Request                      (* a call of start_scan_thread *)
| WorkerEnds (sched : list nat). (* the running worker finishes *)

(** The controller and the number of worker threads started and not yet
    ended, after an event. *)
Definition step {P : Type} `{interfaces.WiFiProvider P}
    (on_success : list NetworkCredential → result unit)
    (on_error : str → result unit)
    (st : Controller P * nat) (ev : event) : Controller P * nat :=
  let '(self, live) := st in
  match ev with
  | Request =>
      let e := start_scan_thread self on_success on_error in
      (after e, if started e then S live else live)
  | WorkerEnds sched =>
      match live with
      | O => st
      | S live' => (after (_scan_worker self sched on_success on_error), live')
      end
  end.

Definition session {P : Type} `{interfaces.WiFiProvider P}
    (on_success : list NetworkCredential → result unit)
    (on_error : str → result unit)
    (self : Controller P) (events : list event) : Controller P * nat :=
  foldl (step on_success on_error) (self, O) events.

End controller.

(** ** More sample inputs *)

Module sample2.
Import command_executor.

(** A host that answers in English: two saved profiles, the first with its
    key shown twice, the second queried while the utility cannot be
    spawned. *)
Definition host (cmd : list str) : result str :=
  if decide (cmd = [py "netsh"; py "wlan"; py "show"; py "profiles"]) then
    Return (py "Profiles on interface Wi-Fi:

    All User Profile     : Home
    All User Profile     : Office")
  else if decide (cmd = [py "netsh"; py "wlan"; py "show"; py "profile"; py "Home"; py "key=clear"]) then
    Return (py "    Authentication         : WPA2-Personal
    Key Content            : old
    Security key           : Present
    Key Content            :   secret123  ")
  else Raise (OtherException (py "FileNotFoundError")).

Definition executor : CommandExecutor := {| run := host |}.

Definition netsh : netsh_wifi_provider.NetshWiFiProvider :=
  netsh_wifi_provider.__init__ executor sample.english.

(** The service reports in its own words. *)
Definition spanish : localization_manager.LocalizationManager :=
  {| localization_manager.translations :=
       list_to_map [
         (py "status_open_network", py "Red abierta (sin contraseña)");
         (py "status_general_error", py "Error general");
         (py "admin_privileges_required", py "Se requieren privilegios de administrador");
         (py "error_occurred_during_scan", py "Error durante el escaneo") ];
     localization_manager.str_format := sample.format_fields |}.

Definition service : scanner_service.WiFiScannerService netsh_wifi_provider.NetshWiFiProvider :=
  {| scanner_service.provider := netsh; scanner_service.localization_manager := spanish |}.

(** A host with two wireless interfaces that know the same open network. *)
Definition two_interfaces (cmd : list str) : result str :=
  if decide (cmd = [py "netsh"; py "wlan"; py "show"; py "profiles"]) then
    Return (py "Profiles on interface Wi-Fi:
    All User Profile     : Cafe
Profiles on interface Wi-Fi 2:
    All User Profile     : Cafe")
  else
    Return (py "    Authentication         : Open
    Security key           : Absent").

Definition service_of_two_interfaces
  : scanner_service.WiFiScannerService netsh_wifi_provider.NetshWiFiProvider :=
  {| scanner_service.provider :=
       netsh_wifi_provider.__init__ {| run := two_interfaces |} sample.english;
     scanner_service.localization_manager := spanish |}.

(** A host asked without administrator rights: the key is not shown. *)
Definition without_rights (cmd : list str) : result str :=
  if decide (cmd = [py "netsh"; py "wlan"; py "show"; py "profiles"]) then
    Return (py "    All User Profile     : Home")
  else
    Return (py "    Authentication         : WPA2-Personal
    Security key           : Present").

(** A host whose utility prints nothing. *)
Definition silent : CommandExecutor := {| run := fun _ => Return [] |}.

(** The controller as it is built, with or without administrator rights,
    and callbacks that return. *)
Definition controller_of (admin : bool)
  : controller.Controller netsh_wifi_provider.NetshWiFiProvider :=
  {| controller.localization_manager := spanish;
     controller.is_scanning := false;
     controller.validator := {| controller.is_admin := admin |};
     controller.scanner_service := service |}.

Definition on_success (credentials : list NetworkCredential) : result unit := Return tt.

Definition on_error (error_message : str) : result unit := Return tt.

End sample2.

(** * Properties *)

(** ** Strings *)

Section StringFacts.
Local Open Scope N_scope.

Lemma strip_prefix_Some p s r : strip_prefix p s = Some r ↔ s = p ++ r.
Proof.
  revert s. induction p as [|a p IH]; intros s; simpl.
  - split; [intros [= ->]; done | intros ->; done].
  - destruct s as [|b s]; [split; [done | intros [=]]|].
    destruct (N.eqb_spec a b) as [->|Hne].
    + rewrite IH. split; [intros ->; done | intros [= ->]; done].
    + split; [done | intros [= ? ?]; congruence].
Qed.

Lemma str_in_occurs val text : str_in val text = true ↔ spec.occurs_in val text.
Proof.
  induction text as [|c text IH]; simpl.
  - destruct (strip_prefix val []) as [r|] eqn:E.
    + apply strip_prefix_Some in E. split; [|done].
      intros _. exists [], r. done.
    + split; [done|]. intros (pre & post & H).
      destruct pre; [|done]. simpl in H.
      assert (strip_prefix val [] = Some post) as E' by (apply strip_prefix_Some; done).
      congruence.
  - destruct (strip_prefix val (c :: text)) as [r|] eqn:E.
    + apply strip_prefix_Some in E. split; [|done].
      intros _. exists [], r. done.
    + rewrite IH. split.
      * intros (pre & post & ->). exists (c :: pre), post. done.
      * intros (pre & post & H). destruct pre as [|d pre].
        -- simpl in H.
           assert (strip_prefix val (c :: text) = Some post) as E'
             by (apply strip_prefix_Some; done).
           congruence.
        -- injection H as -> ->. exists pre, post. done.
Qed.

End StringFacts.

(** ** The classification of the parsed fields *)

Section Classification.
Import netsh_wifi_provider.

Lemma NETSH_KEYS_key_content :
  NETSH_KEYS !!! py "key_content" = spec.key_content_labels.
Proof. reflexivity. Qed.

Lemma NETSH_KEYS_security_key :
  NETSH_KEYS !!! py "security_key" = spec.security_key_labels.
Proof. reflexivity. Qed.

Lemma NETSH_KEYS_security_key_absent :
  NETSH_KEYS !!! py "security_key_absent" = spec.absent_values.
Proof. reflexivity. Qed.

Lemma NETSH_KEYS_authentication :
  NETSH_KEYS !!! py "authentication" = spec.authentication_labels.
Proof. reflexivity. Qed.

Lemma NETSH_KEYS_auth_open :
  NETSH_KEYS !!! py "auth_open" = spec.open_values.
Proof. reflexivity. Qed.

Lemma any_in_spec vals text :
  any_in vals text = true ↔ spec.contains_variant vals text.
Proof.
  unfold any_in, spec.contains_variant. rewrite existsb_exists.
  split; intros (val & Hin & H); exists val.
  - split; [by apply list_elem_of_In | by apply str_in_occurs].
  - split; [by apply list_elem_of_In | by apply str_in_occurs].
Qed.

Lemma first_present_None (keys : list str) (d : gmap str str) :
  first_present keys d = None ↔ spec.no_label keys d.
Proof.
  unfold spec.no_label. induction keys as [|k keys IH]; simpl.
  - split; [intros _ k Hk; by apply elem_of_nil in Hk | done].
  - destruct (d !! k) as [v|] eqn:E.
    + split; [done|]. intros H. specialize (H k (list_elem_of_here _ _)). congruence.
    + rewrite IH. split.
      * intros H k' [->|Hk']%elem_of_cons; auto.
      * intros H k' Hk'. apply H. by apply list_elem_of_further.
Qed.

Lemma first_label_cons_here (k : str) (keys : list str) (d : gmap str str) :
  is_Some (d !! k) → ∀ k', spec.first_label (k :: keys) d k' ↔ k' = k.
Proof.
  intros Hk k'. split.
  - intros (l1 & l2 & Heq & Hno & _). destruct l1 as [|a l1].
    + by injection Heq as ->.
    + injection Heq as <- _. specialize (Hno k (list_elem_of_here _ _)).
      destruct Hk as [? Hk]. congruence.
  - intros ->. exists [], keys. split; [done|]. split; [|done].
    intros ? H. by apply elem_of_nil in H.
Qed.

Lemma first_label_cons_further (k : str) (keys : list str) (d : gmap str str) :
  d !! k = None → ∀ k', spec.first_label (k :: keys) d k' ↔ spec.first_label keys d k'.
Proof.
  intros Hk k'. split.
  - intros (l1 & l2 & Heq & Hno & Hs). destruct l1 as [|a l1].
    + injection Heq as -> _. destruct Hs as [? Hs]. congruence.
    + injection Heq as _ ->. exists l1, l2. split; [done|]. split; [|done].
      intros k'' H. apply Hno. by apply list_elem_of_further.
  - intros (l1 & l2 & -> & Hno & Hs). exists (k :: l1), l2.
    split; [done|]. split; [|done].
    intros k'' [->|H]%elem_of_cons; auto.
Qed.

Lemma first_present_Some (keys : list str) (d : gmap str str) v :
  first_present keys d = Some v ↔ ∃ k, spec.first_label keys d k ∧ d !! k = Some v.
Proof.
  induction keys as [|k keys IH]; simpl.
  - split; [done|]. intros (k & (l1 & l2 & Heq & _) & _). by destruct l1.
  - destruct (d !! k) as [w|] eqn:E.
    + split.
      * intros [= ->]. exists k. split; [|done]. by apply first_label_cons_here.
      * intros (k' & Hk' & Hv). apply first_label_cons_here in Hk'; [|by eexists].
        subst k'. congruence.
    + rewrite IH. split; intros (k' & Hk' & Hv); exists k'; split; try done.
      * by apply first_label_cons_further.
      * by apply first_label_cons_further in Hk'.
Qed.

Lemma next_key_Some (keys : list str) (d : gmap str str) k :
  next_key keys d = Some k ↔ spec.first_label keys d k.
Proof.
  induction keys as [|k0 keys IH]; simpl.
  - split; [done|]. intros (l1 & l2 & Heq & _). by destruct l1.
  - destruct (d !! k0) as [w|] eqn:E.
    + rewrite first_label_cons_here by (by eexists). split; [by intros [= ->] | by intros ->].
    + rewrite IH. by rewrite first_label_cons_further.
Qed.

Lemma next_key_None (keys : list str) (d : gmap str str) :
  next_key keys d = None ↔ spec.no_label keys d.
Proof.
  unfold spec.no_label. induction keys as [|k keys IH]; simpl.
  - split; [intros _ k Hk; by apply elem_of_nil in Hk | done].
  - destruct (d !! k) as [v|] eqn:E.
    + split; [done|]. intros H. specialize (H k (list_elem_of_here _ _)). congruence.
    + rewrite IH. split.
      * intros H k' [->|Hk']%elem_of_cons; auto.
      * intros H k' Hk'. apply H. by apply list_elem_of_further.
Qed.

Lemma security_absent_spec (keys : list str) (d : gmap str str) :
  security_absent keys d = true
  ↔ ∃ k v, k ∈ keys ∧ d !! k = Some v ∧ spec.contains_variant spec.absent_values v.
Proof.
  induction keys as [|k keys IH]; simpl.
  - split; [done|]. intros (k & v & Hk & _). by apply elem_of_nil in Hk.
  - rewrite NETSH_KEYS_security_key_absent.
    destruct (d !! k) as [w|] eqn:E.
    + destruct (any_in spec.absent_values w) eqn:A.
      * split; [|done]. intros _. exists k, w. split; [apply list_elem_of_here|].
        split; [done|]. by apply any_in_spec.
      * rewrite IH. split.
        -- intros (k' & v & Hk' & Hv & Hc). exists k', v.
           split; [by apply list_elem_of_further | done].
        -- intros (k' & v & [->|Hk']%elem_of_cons & Hv & Hc).
           ++ assert (w = v) as -> by congruence.
              apply any_in_spec in Hc. congruence.
           ++ exists k', v. done.
    + rewrite IH. split.
      * intros (k' & v & Hk' & Hv & Hc). exists k', v.
        split; [by apply list_elem_of_further | done].
      * intros (k' & v & [->|Hk']%elem_of_cons & Hv & Hc); [congruence|].
        exists k', v. done.
Qed.

(** The authentication branch of [classify], as a boolean. *)
Lemma first_auth_open_spec (d : gmap str str) :
  match next_key spec.authentication_labels d with
  | Some ((_ :: _) as k) => any_in spec.open_values (d !!! k)
  | _ => false
  end = true ↔ spec.first_auth_open_signal d.
Proof.
  unfold spec.first_auth_open_signal.
  destruct (next_key spec.authentication_labels d) as [k|] eqn:E.
  - apply next_key_Some in E.
    assert (is_Some (d !! k)) as [v Hv] by (by destruct E as (? & ? & ? & ? & ?)).
    assert (d !!! k = v) as Htot by (by rewrite lookup_total_alt, Hv).
    assert (k ≠ []) as Hne.
    { destruct E as (l1 & l2 & Heq & _). intros ->.
      assert ([] ∈ spec.authentication_labels) as Hin
        by (rewrite Heq; apply elem_of_app; right; apply list_elem_of_here).
      unfold spec.authentication_labels in Hin.
      apply elem_of_cons in Hin as [Hin|Hin]; [done|].
      apply elem_of_cons in Hin as [Hin|Hin]; [done|].
      by apply elem_of_nil in Hin. }
    destruct k as [|c k]; [done|]. rewrite Htot. rewrite any_in_spec.
    split.
    + intros Hc. exists (c :: k), v. done.
    + intros (k' & v' & Hk' & Hv' & Hc).
      apply next_key_Some in E, Hk'. assert (k' = c :: k) as -> by congruence.
      assert (v' = v) as -> by congruence. done.
  - split; [done|]. intros (k & v & Hk & _). apply next_key_Some in Hk. congruence.
Qed.

Lemma classify_eq (self : NetshWiFiProvider) (d : gmap str str) (profile : str) :
  classify self d profile =
    match first_present spec.key_content_labels d with
    | Some v => Return (Some v)
    | None =>
        if security_absent spec.security_key_labels d then
          Raise (OpenNetworkException profile)
        else if match next_key spec.authentication_labels d with
                | Some ((_ :: _) as k) => any_in spec.open_values (d !!! k)
                | _ => false
                end
        then Raise (OpenNetworkException profile)
        else Raise (AdminRightsRequiredError profile (spec.admin_message self profile))
    end.
Proof.
  unfold classify, spec.admin_message.
  rewrite NETSH_KEYS_key_content, NETSH_KEYS_security_key,
    NETSH_KEYS_authentication, NETSH_KEYS_auth_open.
  destruct (first_present _ d); [done|].
  destruct (security_absent _ d); [done|].
  destruct (next_key _ d) as [[|c k]|]; done.
Qed.

Lemma security_absent_signal_spec (d : gmap str str) :
  security_absent spec.security_key_labels d = true ↔ spec.security_absent_signal d.
Proof. apply security_absent_spec. Qed.

(** C3, as amended.  Classification follows a first-match-wins order: when
    a key-content label is present the result is the value of the first one
    present, whatever else the mapping holds; otherwise, when some
    security-key label is present with a value containing an absent-value
    variant, or the first authentication label present has a value containing
    an open-value variant, the result is [OpenNetworkException]; otherwise it
    is [AdminRightsRequiredError].  Exactly one of the three cases applies. *)
Theorem classify_decision_order (self : NetshWiFiProvider) (d : gmap str str) (profile : str) :
  (∃ k v, spec.first_label spec.key_content_labels d k ∧ d !! k = Some v
          ∧ classify self d profile = Return (Some v))
  ∨ (spec.no_label spec.key_content_labels d
     ∧ (spec.security_absent_signal d ∨ spec.first_auth_open_signal d)
     ∧ classify self d profile = Raise (OpenNetworkException profile))
  ∨ (spec.no_label spec.key_content_labels d
     ∧ ¬ spec.security_absent_signal d ∧ ¬ spec.first_auth_open_signal d
     ∧ classify self d profile
       = Raise (AdminRightsRequiredError profile (spec.admin_message self profile))).
Proof.
  rewrite classify_eq.
  destruct (first_present spec.key_content_labels d) as [v|] eqn:K.
  - left. apply first_present_Some in K as (k & Hk & Hv). by exists k, v.
  - right. apply first_present_None in K.
    destruct (security_absent spec.security_key_labels d) eqn:S.
    + left. apply security_absent_signal_spec in S. auto.
    + assert (¬ spec.security_absent_signal d) as HS.
      { intros H. apply security_absent_signal_spec in H. congruence. }
      pose proof (first_auth_open_spec d) as A.
      destruct (match next_key spec.authentication_labels d with
                | Some ((_ :: _) as k) => any_in spec.open_values (d !!! k)
                | _ => false
                end).
      * left. split; [done|]. split; [right; by apply A | done].
      * right. split; [done|]. split; [done|]. split; [|done].
        intros H. apply A in H. done.
Qed.

(** C3, as stated, fails: a mapping without key-content label in which an
    authentication label ("Autenticación") has a value that is an open-value
    variant ("Abierta") is classified [AdminRightsRequiredError], because
    another authentication label comes first in the table. *)
Lemma classify_second_authentication_label_ignored :
  let d : gmap str str :=
    {[ py "Authentication" := py "WPA2-Personal"; py "Autenticación" := py "Abierta" ]} in
  spec.no_label spec.key_content_labels d
  ∧ spec.auth_open_signal d
  ∧ classify sample.netsh d (py "Casa")
    = Raise (AdminRightsRequiredError (py "Casa")
               (py "Password for 'Casa' not found (admin rights required)"))
  ∧ classify sample.netsh d (py "Casa") ≠ Raise (OpenNetworkException (py "Casa")).
Proof.
  intros d. split; [|split; [|split]].
  - apply first_present_None. reflexivity.
  - exists (py "Autenticación"), (py "Abierta").
    split; [apply list_elem_of_further, list_elem_of_here|].
    split; [reflexivity|].
    exists (py "Abierta"). split; [apply list_elem_of_further, list_elem_of_here|].
    exists [], []. reflexivity.
  - vm_compute. reflexivity.
  - vm_compute. discriminate.
Qed.

(** A key-content label wins over the signals of an open network. *)
Example classify_key_content_wins :
  classify sample.netsh
    {[ py "Key Content" := py "secret123"; py "Security key" := py "Absent";
       py "Authentication" := py "Open" ]} (py "Cafe")
  = Return (Some (py "secret123")).
Proof. vm_compute. reflexivity. Qed.

(** An open authentication and no key field. *)
Example classify_authentication_open :
  classify sample.netsh (_parse_netsh_output (py "    Authentication         : Open
    Cipher                 : None")) (py "Cafe")
  = Raise (OpenNetworkException (py "Cafe")).
Proof. vm_compute. reflexivity. Qed.


(** C10, as amended.  Value variants are matched by containment: for a
    mapping without key-content label, the result is [OpenNetworkException]
    as soon as the value of some security-key label contains an absent-value
    variant, or the value of the first authentication label present contains
    an open-value variant; the value need not be equal to the variant. *)
Theorem classify_open_by_containment (self : NetshWiFiProvider) (d : gmap str str) (profile : str) :
  spec.no_label spec.key_content_labels d →
  spec.security_absent_signal d ∨ spec.first_auth_open_signal d →
  classify self d profile = Raise (OpenNetworkException profile).
Proof.
  intros K H. rewrite classify_eq.
  apply first_present_None in K. rewrite K.
  destruct (security_absent spec.security_key_labels d) eqn:S; [done|].
  destruct H as [H|H].
  - apply security_absent_signal_spec in H. congruence.
  - apply first_auth_open_spec in H. by rewrite H.
Qed.

Lemma classify_open_by_containment_witness :
  let d : gmap str str := {[ py "Autenticación" := py "Red Abierta" ]} in
  spec.no_label spec.key_content_labels d
  ∧ (spec.security_absent_signal d ∨ spec.first_auth_open_signal d)
  ∧ (py "Red Abierta" ∉ spec.open_values)
  ∧ classify sample.netsh d (py "Cafe") = Raise (OpenNetworkException (py "Cafe")).
Proof.
  intros d.
  assert (spec.no_label spec.key_content_labels d) as K
    by (apply first_present_None; reflexivity).
  assert (spec.security_absent_signal d ∨ spec.first_auth_open_signal d) as O.
  { right. exists (py "Autenticación"), (py "Red Abierta").
    split; [|split; [reflexivity|]].
    - exists [py "Authentication"], []. split; [reflexivity|].
      split; [|by eexists].
      intros k Hk. apply list_elem_of_singleton in Hk as ->. reflexivity.
    - exists (py "Abierta"). split; [apply list_elem_of_further, list_elem_of_here|].
      exists (py "Red "), []. reflexivity. }
  split; [exact K|]. split; [exact O|]. split.
  - intros H. repeat (apply elem_of_cons in H as [H|H]; [discriminate H|]).
    by apply elem_of_nil in H.
  - exact (classify_open_by_containment sample.netsh d (py "Cafe") K O).
Defined.

(** C10, as stated, fails for the authentication labels: in a mapping
    without key-content label the value of an authentication label
    ("Autenticación") contains an open-value variant ("Abierta") as a
    substring, and the result is [AdminRightsRequiredError], because the
    label "Authentication" is present too and only its value is looked at.
    For the security-key labels every label present is looked at. *)
Lemma classify_open_value_under_later_authentication_label :
  let d : gmap str str :=
    {[ py "Authentication" := py "WPA2-Personal"; py "Autenticación" := py "Red Abierta" ]} in
  spec.no_label spec.key_content_labels d
  ∧ (∃ k v, k ∈ spec.authentication_labels ∧ d !! k = Some v
            ∧ spec.contains_variant spec.open_values v ∧ v ∉ spec.open_values)
  ∧ ¬ spec.first_auth_open_signal d
  ∧ classify sample.netsh d (py "Cafe")
    = Raise (AdminRightsRequiredError (py "Cafe")
               (py "Password for 'Cafe' not found (admin rights required)"))
  ∧ classify sample.netsh d (py "Cafe") ≠ Raise (OpenNetworkException (py "Cafe")).
Proof.
  intros d.
  assert (classify sample.netsh d (py "Cafe")
          = Raise (AdminRightsRequiredError (py "Cafe")
                     (py "Password for 'Cafe' not found (admin rights required)"))) as Hc
    by (vm_compute; reflexivity).
  split; [|split; [|split; [|split]]].
  - apply first_present_None. reflexivity.
  - exists (py "Autenticación"), (py "Red Abierta").
    split; [apply list_elem_of_further, list_elem_of_here|].
    split; [reflexivity|]. split.
    + exists (py "Abierta"). split; [apply list_elem_of_further, list_elem_of_here|].
      exists (py "Red "), []. reflexivity.
    + intros H. repeat (apply elem_of_cons in H as [H|H]; [discriminate H|]).
      by apply elem_of_nil in H.
  - intros Hopen. apply first_auth_open_spec in Hopen.
    vm_compute in Hopen. discriminate Hopen.
  - exact Hc.
  - rewrite Hc. discriminate.
Qed.

(** *** Locale fallback *)

Ltac label_neq := let H := fresh in intros H; vm_compute in H; discriminate H.

Lemma lookup_relabel (k_from k_to : str) (f : str → str) (m : gmap str str) (k : str) :
  k_from ≠ k_to → m !! k_to = None →
  locale.relabel k_from k_to f m !! k =
    if decide (k = k_to) then f <$> m !! k_from
    else if decide (k = k_from) then None else m !! k.
Proof.
  intros Hne Hto. unfold locale.relabel.
  destruct (m !! k_from) as [v|] eqn:E.
  - destruct (decide (k = k_to)) as [->|H1]; [by rewrite lookup_insert_eq|].
    rewrite lookup_insert_ne by done.
    destruct (decide (k = k_from)) as [->|H2]; [by rewrite lookup_delete_eq|].
    by rewrite lookup_delete_ne.
  - destruct (decide (k = k_to)) as [->|H1]; [done|].
    destruct (decide (k = k_from)) as [->|H2]; done.
Qed.

Lemma any_in_translate (vals : list str) (from to v : str) :
  any_in vals from = true → any_in vals to = true →
  any_in vals (locale.translate_value from to v) = any_in vals v.
Proof.
  intros Hf Ht. unfold locale.translate_value.
  destruct (decide (v = from)) as [->|]; [congruence | done].
Qed.

Lemma lookup_english_equivalent (m : gmap str str) (k : str) :
  locale.no_english_label m →
  locale.english_equivalent m !! k =
    if decide (k = py "Authentication") then
      locale.translate_value (py "Abierta") (py "Open") <$> m !! py "Autenticación"
    else if decide (k = py "Autenticación") then None
    else if decide (k = py "Security key") then
      locale.translate_value (py "Ausente") (py "Absent") <$> m !! py "Clave de seguridad"
    else if decide (k = py "Clave de seguridad") then None
    else if decide (k = py "Key Content") then m !! py "Contenido de la clave"
    else if decide (k = py "Contenido de la clave") then None
    else m !! k.
Proof.
  intros (Hk & Hs & Ha). unfold locale.english_equivalent.
  set (m1 := locale.relabel (py "Contenido de la clave") (py "Key Content") id m).
  set (m2 := locale.relabel (py "Clave de seguridad") (py "Security key") _ m1).
  assert (∀ k, m1 !! k = if decide (k = py "Key Content") then m !! py "Contenido de la clave"
                         else if decide (k = py "Contenido de la clave") then None
                         else m !! k) as H1.
  { intros k'. unfold m1. rewrite lookup_relabel; [|label_neq|done].
    destruct (decide _); [|done]. by destruct (m !! py "Contenido de la clave"). }
  assert (∀ k, m2 !! k =
               if decide (k = py "Security key") then
                 locale.translate_value (py "Ausente") (py "Absent") <$> m !! py "Clave de seguridad"
               else if decide (k = py "Clave de seguridad") then None
               else m1 !! k) as H2.
  { intros k'. unfold m2. rewrite lookup_relabel; [|label_neq|].
    - destruct (decide _); [|done]. rewrite H1.
      rewrite decide_False by label_neq. rewrite decide_False by label_neq. done.
    - rewrite H1. rewrite decide_False by label_neq. rewrite decide_False by label_neq. done. }
  rewrite lookup_relabel; [|label_neq|].
  - destruct (decide (k = py "Authentication")).
    + rewrite H2, H1. do 4 (rewrite decide_False by label_neq). done.
    + destruct (decide (k = py "Autenticación")); [done|].
      rewrite H2. destruct (decide (k = py "Security key")); [done|].
      destruct (decide (k = py "Clave de seguridad")); [done|].
      rewrite H1. done.
  - rewrite H2, H1. do 4 (rewrite decide_False by label_neq). done.
Qed.

(** C8.  A mapping that uses the Spanish labels and values of the table is
    classified as its English equivalent is: the same password, the same
    exception with the same content. *)
Theorem classify_locale_fallback (self : NetshWiFiProvider) (m : gmap str str) (profile : str) :
  locale.no_english_label m →
  classify self m profile = classify self (locale.english_equivalent m) profile.
Proof.
  intros Hm. pose proof (lookup_english_equivalent m) as L.
  destruct Hm as (Hk & Hs & Ha).
  rewrite !classify_eq.
  unfold spec.key_content_labels, spec.security_key_labels, spec.authentication_labels.
  cbn [first_present security_absent next_key].
  rewrite NETSH_KEYS_security_key_absent.
  rewrite !L by done. rewrite Hk, Hs, Ha.
  repeat (first [rewrite decide_True by reflexivity | rewrite decide_False by label_neq]).
  destruct (m !! py "Contenido de la clave") as [v|]; [done|].
  assert (match locale.translate_value (py "Abierta") (py "Open") <$> m !! py "Autenticación" with
          | Some _ => Some (py "Authentication")
          | None => None
          end = (λ _, py "Authentication") <$> m !! py "Autenticación") as ->
    by (by destruct (m !! py "Autenticación")).
  assert (match
            match m !! py "Autenticación" with
            | Some _ => Some (py "Autenticación")
            | None => None
            end
          with
          | Some ((_ :: _) as k) => any_in spec.open_values (m !!! k)
          | _ => false
          end
          = match (λ _, py "Authentication") <$> m !! py "Autenticación" with
            | Some ((_ :: _) as k) =>
                any_in spec.open_values (locale.english_equivalent m !!! k)
            | _ => false
            end) as ->.
  { destruct (m !! py "Autenticación") as [w|] eqn:A; [|done].
    cbn [fmap option_fmap option_map].
    destruct (py "Autenticación") as [|c1 r1] eqn:E1; [vm_compute in E1; discriminate|].
    destruct (py "Authentication") as [|c2 r2] eqn:E2; [vm_compute in E2; discriminate|].
    rewrite <- E1, <- E2 in *.
    rewrite !lookup_total_alt, L by done.
    rewrite decide_True by reflexivity. rewrite A.
    cbn [fmap option_fmap option_map default]. unfold id.
    by rewrite any_in_translate by reflexivity. }
  destruct (m !! py "Clave de seguridad") as [v|] eqn:S; [|done].
  cbn [fmap option_fmap option_map].
  by rewrite any_in_translate by reflexivity.
Qed.

Lemma classify_locale_fallback_witness :
  let m : gmap str str :=
    {[ py "Autenticación" := py "Abierta"; py "Clave de seguridad" := py "Ausente";
       py "Cifrado" := py "Ninguna" ]} in
  locale.no_english_label m
  ∧ locale.english_equivalent m
    = {[ py "Authentication" := py "Open"; py "Security key" := py "Absent";
         py "Cifrado" := py "Ninguna" ]}
  ∧ classify sample.netsh m (py "MiRed1")
    = classify sample.netsh (locale.english_equivalent m) (py "MiRed1").
Proof.
  intros m.
  assert (locale.no_english_label m) as Hm by (repeat split; reflexivity).
  split; [exact Hm|]. split; [vm_compute; reflexivity|].
  exact (classify_locale_fallback sample.netsh m (py "MiRed1") Hm).
Defined.

End Classification.

(** ** The scan *)

Section Order.
Local Open Scope N_scope.






End Order.

Section Completion.
Import scanner_service.
Context {A : Type}.
Implicit Types (pending l : list A) (sched : list nat).

Lemma complete_Permutation (fuel : nat) pending sched :
  length pending = fuel → complete fuel pending sched ≡ₚ pending.
Proof.
  revert pending sched. induction fuel as [|fuel IH]; intros pending sched Hlen.
  - by destruct pending.
  - destruct pending as [|d rest]; [done|]. cbn [complete].
    set (l := d :: rest) in *.
    set (k := hd 0 sched mod length l).
    assert (k < length l) as Hk by (apply Nat.mod_upper_bound; by rewrite Hlen).
    destruct (lookup_lt_is_Some_2 l k Hk) as [x Hx].
    rewrite (nth_lookup_Some _ _ _ _ Hx).
    transitivity (x :: delete k l); [|symmetry; by apply delete_Permutation].
    constructor. apply IH. rewrite length_delete by (by eexists). lia.
Qed.

(** Every future is handed out exactly once. *)
Lemma as_completed_Permutation pending sched : as_completed pending sched ≡ₚ pending.
Proof. by apply complete_Permutation. Qed.

(** Every order of completion is the order of some schedule. *)
Lemma as_completed_onto l l' : l' ≡ₚ l → ∃ sched, as_completed l sched = l'.
Proof.
  unfold as_completed. revert l. induction l' as [|x l' IH]; intros l Hp.
  - apply Permutation_nil_l in Hp as <-. by exists [].
  - assert (x ∈ l) as Hin by (apply elem_of_Permutation; by exists l').
    apply list_elem_of_lookup in Hin as [k Hk].
    pose proof (lookup_lt_Some _ _ _ Hk) as Hlt.
    assert (l' ≡ₚ delete k l) as Hp'.
    { apply (Permutation_cons_inv (a := x)). rewrite Hp. by apply delete_Permutation. }
    destruct (IH _ Hp') as [sched Hs]. exists (k :: sched).
    destruct l as [|d rest]; [done|].
    change (length (d :: rest)) with (S (length rest)) in *. cbn [complete hd tl].
    change (S (length rest)) with (length (d :: rest)) in *.
    rewrite Nat.mod_small by done.
    rewrite (nth_lookup_Some _ _ _ _ Hk). f_equal.
    rewrite <- Hs. f_equal. rewrite length_delete by (by eexists).
    simpl. lia.
Qed.

End Completion.

Section Scan.
Import interfaces scanner_service.

Lemma nth_fmap {A B : Type} (f : A → B) (l : list A) (k : nat) (d : A) :
  nth k (f <$> l) (f d) = f (nth k l d).
Proof.
  revert k. induction l as [|x l IH]; intros [|k]; simpl; done.
Qed.

Lemma complete_fmap {A B : Type} (f : A → B) (fuel : nat) (l : list A) (sched : list nat) :
  complete fuel (f <$> l) sched = f <$> complete fuel l sched.
Proof.
  revert l sched. induction fuel as [|fuel IH]; intros l sched; [by destruct l|].
  destruct l as [|d rest]; [done|].
  set (l := d :: rest).
  change (complete (S fuel) (f <$> l) sched)
    with (nth (hd 0 sched mod length (f <$> l)) (f <$> l) (f d)
            :: complete fuel (delete (hd 0 sched mod length (f <$> l)) (f <$> l)) (tl sched)).
  change (complete (S fuel) l sched)
    with (nth (hd 0 sched mod length l) l d
            :: complete fuel (delete (hd 0 sched mod length l) l) (tl sched)).
  rewrite length_fmap, fmap_cons, nth_fmap. f_equal.
  by rewrite <- list_fmap_delete, IH.
Qed.

Lemma foldl_snoc {A B : Type} (f : A → B) (init : list B) (l : list A) :
  foldl (fun acc x => acc ++ [f x]) init l = init ++ (f <$> l).
Proof.
  revert init. induction l as [|x l IH]; intros init; simpl.
  - by rewrite app_nil_r.
  - rewrite IH. by rewrite <- app_assoc.
Qed.

Lemma insert_by_name_Permutation (c : NetworkCredential) (l : list NetworkCredential) :
  insert_by_name c l ≡ₚ c :: l.
Proof.
  induction l as [|d l IH]; simpl; [done|].
  destruct (str_le (name c) (name d)); [done|].
  rewrite IH. apply Permutation_swap.
Qed.

Lemma sort_by_name_Permutation (l : list NetworkCredential) : sort_by_name l ≡ₚ l.
Proof.
  induction l as [|c l IH]; simpl; [done|].
  rewrite insert_by_name_Permutation. by constructor.
Qed.






Context {P : Type} `{WiFiProvider P}.

Lemma imap_lookups {B : Type} (f : nat → str → B) (l : list str) :
  imap f l = (fun lookup => f lookup.1 lookup.2) <$> spec.lookups l.
Proof. unfold spec.lookups. rewrite fmap_imap. by apply imap_ext. Qed.

Lemma snd_lookups (l : list str) : snd <$> spec.lookups l = l.
Proof.
  unfold spec.lookups. rewrite fmap_imap.
  rewrite (imap_ext _ (const id)) by done.
  rewrite imap_const. apply list_fmap_id.
Qed.

Lemma elem_of_lookups (l : list str) (call : nat) (p : str) :
  (call, p) ∈ spec.lookups l ↔ l !! call = Some p.
Proof.
  unfold spec.lookups. rewrite elem_of_lookup_imap. split.
  - intros (i & y & Heq & Hi). by inversion Heq; subst.
  - intros Hl. by exists call, p.
Qed.

Lemma foldl_futures (self : WiFiScannerService P) (l : list (nat * str))
    (acc : list NetworkCredential) :
  foldl (fun credentials '(future, profile_name) =>
           credentials ++ [credential_of (localization_manager self) future profile_name])
    acc ((fun lookup => (get_password (provider self) lookup.1 lookup.2, lookup.2)) <$> l)
  = acc ++ (spec.row_of self <$> l).
Proof.
  revert acc. induction l as [|x l IH]; intros acc.
  - by rewrite app_nil_r.
  - rewrite !fmap_cons. cbn [foldl]. rewrite IH. by rewrite <- app_assoc.
Qed.

Lemma scan_Return (self : WiFiScannerService P) (sched : list nat) (profiles : list str) :
  list_profiles (provider self) = Return profiles →
  scan self sched
  = Return (sort_by_name (spec.row_of self <$> as_completed (spec.lookups profiles) sched)).
Proof.
  intros Hl. unfold scan. rewrite Hl.
  destruct profiles as [|p profiles]; [done|]. f_equal. f_equal.
  rewrite (imap_lookups
             (fun call profile => (get_password (provider self) call profile, profile))).
  unfold as_completed. rewrite length_fmap, complete_fmap.
  set (finished := complete _ _ _).
  apply (foldl_futures self finished []).
Qed.

Lemma scan_Raise (self : WiFiScannerService P) (sched : list nat) (e : exn) :
  list_profiles (provider self) = Raise e →
  scan self sched = Raise (ScannerServiceException e).
Proof. intros Hl. unfold scan. by rewrite Hl. Qed.

Lemma name_row (self : WiFiScannerService P) (call : nat) (p : str) :
  name (spec.row self call p) = p.
Proof.
  unfold spec.row, credential_of.
  destruct (get_password _ _ _) as [pw|[]]; done.
Qed.

Lemma interface_row (self : WiFiScannerService P) (call : nat) (p : str) :
  interface (spec.row self call p) = py "WiFi".
Proof.
  unfold spec.row, credential_of.
  destruct (get_password _ _ _) as [pw|[]]; done.
Qed.

Lemma names_of_rows (self : WiFiScannerService P) (l : list (nat * str)) :
  name <$> (spec.row_of self <$> l) = snd <$> l.
Proof.
  induction l as [|x l IH]; [done|]. rewrite !fmap_cons, IH.
  unfold spec.row_of at 1. by rewrite name_row.
Qed.

(** The names of the rows of a scan are the listed names, up to order. *)
Lemma names_of_scan (self : WiFiScannerService P) (sched : list nat) (profiles : list str) :
  name <$> sort_by_name (spec.row_of self <$> as_completed (spec.lookups profiles) sched)
  ≡ₚ profiles.
Proof.
  rewrite sort_by_name_Permutation, names_of_rows, as_completed_Permutation.
  by rewrite snd_lookups.
Qed.

(** The row of every entry of the listing is in the result. *)
Lemma row_of_entry (self : WiFiScannerService P) (sched : list nat) (profiles : list str)
    (call : nat) (p : str) :
  profiles !! call = Some p →
  spec.row self call p
  ∈ sort_by_name (spec.row_of self <$> as_completed (spec.lookups profiles) sched).
Proof.
  intros Hp. rewrite sort_by_name_Permutation.
  apply (list_elem_of_fmap_2' _ _ (call, p)); [|done].
  rewrite as_completed_Permutation. by apply elem_of_lookups.
Qed.

Lemma filter_no_name (creds : list NetworkCredential) (p : str) :
  (∀ e, e ∈ creds → name e ≠ p) → filter (fun c' => name c' = p) creds = [].
Proof.
  induction creds as [|d creds IH]; intros Hno; [done|].
  rewrite filter_cons_False by (apply Hno, list_elem_of_here).
  apply IH. intros e He. by apply Hno, list_elem_of_further.
Qed.

Lemma filter_unique_name (creds : list NetworkCredential) (c : NetworkCredential) :
  NoDup (name <$> creds) → c ∈ creds →
  filter (fun c' => name c' = name c) creds = [c].
Proof.
  induction creds as [|d creds IH]; intros Hnd Hin; [by apply elem_of_nil in Hin|].
  rewrite fmap_cons in Hnd. apply NoDup_cons in Hnd as [Hd Hnd].
  assert (∀ e, e ∈ creds → name e ≠ name d) as Hother.
  { intros e He Heq. apply Hd. rewrite <- Heq. by apply list_elem_of_fmap_2. }
  apply elem_of_cons in Hin as [->|Hin].
  - rewrite filter_cons_True by done. f_equal.
    apply filter_no_name. intros e He. by apply Hother.
  - rewrite filter_cons_False; [by apply IH|].
    intros Heq. by apply (Hother c Hin).
Qed.






(** C1.  When the listing returns distinct profile names, the result of the
    scan holds exactly one credential per listed name, whatever the lookups
    return or raise: the names of the result are the listed names up to
    order, each listed name selects exactly one credential, and every
    credential bears a listed name. *)
Theorem scan_one_credential_per_profile (self : WiFiScannerService P)
    (sched : list nat) (profiles : list str) :
  list_profiles (provider self) = Return profiles →
  NoDup profiles →
  ∃ creds, scan self sched = Return creds
    ∧ name <$> creds ≡ₚ profiles
    ∧ (∀ p, p ∈ profiles → ∃ c, filter (fun c' => name c' = p) creds = [c])
    ∧ (∀ c, c ∈ creds → name c ∈ profiles).
Proof.
  intros Hl Hnd. eexists. split; [by apply scan_Return|].
  set (creds := sort_by_name _).
  assert (name <$> creds ≡ₚ profiles) as Hp by apply names_of_scan.
  split; [done|]. split.
  - intros p Hin. rewrite <- Hp in Hin.
    apply list_elem_of_fmap in Hin as (c & -> & Hc). exists c.
    apply filter_unique_name; [|done]. by rewrite Hp.
  - intros c Hc. rewrite <- Hp. by apply list_elem_of_fmap_2.
Qed.


(** C5.  The scan raises, a [ScannerServiceException] that wraps the cause,
    exactly when the listing of the profiles raises; when the listing
    returns, the scan returns, and for every listed profile the result holds
    the entry built from what its lookup returned or raised, whatever
    exception that is. *)
Theorem scan_raises_only_when_listing_fails (self : WiFiScannerService P)
    (sched : list nat) :
  match list_profiles (provider self) with
  | Raise e => scan self sched = Raise (ScannerServiceException e)
  | Return profiles =>
      ∃ creds, scan self sched = Return creds
        ∧ ∀ call p, profiles !! call = Some p →
            spec.row self call p ∈ creds ∧ name (spec.row self call p) = p
            ∧ (∀ e, get_password (provider self) call p = Raise e →
                 is_Some (password (spec.row self call p)))
  end.
Proof.
  destruct (list_profiles (provider self)) as [profiles|e] eqn:Hl.
  - eexists. split; [by apply scan_Return|]. intros call p Hp. split; [|split].
    + by apply row_of_entry.
    + apply name_row.
    + intros e He. unfold spec.row, credential_of. rewrite He. by destruct e.
  - by apply scan_Raise.
Qed.

(** Every credential of a scan result is on the interface "WiFi". *)
Lemma scan_interface (self : WiFiScannerService P) (sched : list nat) :
  match scan self sched with
  | Return creds => Forall (fun c => interface c = py "WiFi") creds
  | Raise _ => True
  end.
Proof.
  destruct (list_profiles (provider self)) as [profiles|e] eqn:Hl.
  - rewrite (scan_Return self sched profiles Hl).
    apply Forall_forall. intros c Hc. rewrite sort_by_name_Permutation in Hc.
    apply list_elem_of_fmap in Hc as (p & -> & _). apply interface_row.
  - by rewrite (scan_Raise self sched e Hl).
Qed.

End Scan.

Lemma scan_one_credential_per_profile_witness :
  interfaces.list_profiles (scanner_service.provider sample.service)
    = Return [py "MiRed1"; py "MiRed Espacio"; py "Casa"]
  ∧ NoDup [py "MiRed1"; py "MiRed Espacio"; py "Casa"]
  ∧ ∃ creds, scanner_service.scan sample.service [1; 1]%nat = Return creds
      ∧ name <$> creds ≡ₚ [py "MiRed1"; py "MiRed Espacio"; py "Casa"]
      ∧ (∀ p, p ∈ [py "MiRed1"; py "MiRed Espacio"; py "Casa"] →
           ∃ c, filter (fun c' => name c' = p) creds = [c])
      ∧ (∀ c, c ∈ creds → name c ∈ [py "MiRed1"; py "MiRed Espacio"; py "Casa"]).
Proof.
  assert (interfaces.list_profiles (scanner_service.provider sample.service)
          = Return [py "MiRed1"; py "MiRed Espacio"; py "Casa"]) as Hl
    by (vm_compute; reflexivity).
  assert (NoDup [py "MiRed1"; py "MiRed Espacio"; py "Casa"]) as Hnd
    by (apply (bool_decide_unpack (NoDup [py "MiRed1"; py "MiRed Espacio"; py "Casa"]));
        vm_compute; exact I).
  split; [exact Hl|]. split; [exact Hnd|].
  exact (scan_one_credential_per_profile sample.service [1; 1]%nat _ Hl Hnd).
Defined.



Section ScanOfNetsh.
Import interfaces scanner_service netsh_wifi_provider command_executor.

(** C9.  Every credential of every scan result has the interface "WiFi",
    in each branch of the handling of a lookup; the interface name of the
    provider, "Wi-Fi" for the netsh provider, plays no part in the result. *)
Theorem scan_interface_is_WiFi :
  (∀ loc future profile_name,
     interface (credential_of loc future profile_name) = py "WiFi")
  ∧ (∀ (P : Type) (H : WiFiProvider P) (self : WiFiScannerService P) (sched : list nat),
       match scan self sched with
       | Return creds => Forall (fun c => interface c = py "WiFi") creds
       | Raise _ => True
       end)
  ∧ (∀ executor loc loc' iface sched,
       scan {| provider :=
                 {| command_executor := executor;
                    netsh_wifi_provider.localization_manager := loc;
                    _interface_name := iface |};
               scanner_service.localization_manager := loc' |} sched
       = scan {| provider := __init__ executor loc;
                 scanner_service.localization_manager := loc' |} sched)
  ∧ (∀ executor loc, get_interface_name (__init__ executor loc) = py "Wi-Fi")
  ∧ py "Wi-Fi" ≠ py "WiFi".
Proof.
  split; [|split; [|split; [|split]]].
  - intros loc [pw|[]] p; done.
  - intros P H self sched. apply scan_interface.
  - reflexivity.
  - reflexivity.
  - intros H. vm_compute in H. discriminate H.
Qed.

(** C4, as amended.  When the query of a listed profile exits with a status
    other than zero, the scan still returns, and its result holds the row of
    that profile with no password at all ([None]) and the interface "WiFi". *)
Theorem scan_absorbs_failed_query executor loc loc' (sched : list nat)
    (profiles : list str) (p : str) returncode cmd stdout stderr :
  list_profiles (__init__ executor loc) = Return profiles →
  p ∈ profiles →
  run executor [py "netsh"; py "wlan"; py "show"; py "profile"; p; py "key=clear"]
    = Raise (CalledProcessError returncode cmd stdout stderr) →
  ∃ creds,
    scan {| provider := __init__ executor loc;
            scanner_service.localization_manager := loc' |} sched = Return creds
    ∧ {| name := p; password := None; interface := py "WiFi" |} ∈ creds.
Proof.
  intros Hl Hp Hrun. eexists. split; [by apply scan_Return|].
  apply list_elem_of_lookup in Hp as [call Hp].
  replace {| name := p; password := None; interface := py "WiFi" |}
    with (spec.row {| provider := __init__ executor loc;
                      scanner_service.localization_manager := loc' |} call p);
    [by apply row_of_entry|].
  unfold spec.row.
  change (interfaces.get_password (provider _) call p)
    with (netsh_wifi_provider.get_password (__init__ executor loc) p).
  unfold netsh_wifi_provider.get_password.
  change (command_executor (__init__ executor loc)) with executor.
  by rewrite Hrun.
Qed.

Lemma scan_absorbs_failed_query_witness :
  list_profiles (__init__ sample.executor sample.english)
    = Return [py "MiRed1"; py "MiRed Espacio"; py "Casa"]
  ∧ py "MiRed Espacio" ∈ [py "MiRed1"; py "MiRed Espacio"; py "Casa"]
  ∧ run sample.executor
      [py "netsh"; py "wlan"; py "show"; py "profile"; py "MiRed Espacio"; py "key=clear"]
    = Raise (CalledProcessError 1
               [py "netsh"; py "wlan"; py "show"; py "profile"; py "MiRed Espacio"; py "key=clear"]
               (py "Profile is not found on the system.") [])
  ∧ ∃ creds,
      scan sample.service [2; 0]%nat = Return creds
      ∧ {| name := py "MiRed Espacio"; password := None; interface := py "WiFi" |} ∈ creds.
Proof.
  assert (list_profiles (__init__ sample.executor sample.english)
          = Return [py "MiRed1"; py "MiRed Espacio"; py "Casa"]) as Hl
    by (vm_compute; reflexivity).
  assert (py "MiRed Espacio" ∈ [py "MiRed1"; py "MiRed Espacio"; py "Casa"]) as Hp
    by (apply list_elem_of_further, list_elem_of_here).
  assert (run sample.executor
            [py "netsh"; py "wlan"; py "show"; py "profile"; py "MiRed Espacio"; py "key=clear"]
          = Raise (CalledProcessError 1
               [py "netsh"; py "wlan"; py "show"; py "profile"; py "MiRed Espacio"; py "key=clear"]
               (py "Profile is not found on the system.") [])) as Hrun
    by (vm_compute; reflexivity).
  split; [exact Hl|]. split; [exact Hp|]. split; [exact Hrun|].
  exact (scan_absorbs_failed_query sample.executor sample.english sample.english
           [2; 0]%nat _ _ _ _ _ _ Hl Hp Hrun).
Defined.

(** C4, as stated, fails: the query of "MiRed Espacio" exits with status 1,
    the scan returns, and the password of the row of that profile is no
    status string, localized or not: it is [None]. *)
Lemma scan_failed_query_row_has_no_status_string :
  run sample.executor
    [py "netsh"; py "wlan"; py "show"; py "profile"; py "MiRed Espacio"; py "key=clear"]
  = Raise (CalledProcessError 1
             [py "netsh"; py "wlan"; py "show"; py "profile"; py "MiRed Espacio"; py "key=clear"]
             (py "Profile is not found on the system.") [])
  ∧ ∃ creds,
      scan sample.service [] = Return creds
      ∧ ¬ ∃ c status,
            c ∈ creds ∧ name c = py "MiRed Espacio" ∧ password c = Some status.
Proof.
  split; [vm_compute; reflexivity|].
  eexists. split; [vm_compute; reflexivity|].
  intros (c & status & Hc & Hn & Hpw).
  repeat (apply elem_of_cons in Hc as [->|Hc]; [try discriminate Hn; try discriminate Hpw|]).
  by apply elem_of_nil in Hc.
Qed.

End ScanOfNetsh.

(** ** Trimming and line splitting *)

Section Trimming.
Local Open Scope N_scope.

Lemma lstrip_app (u v : str) :
  lstrip (u ++ v) = if forallb isspace u then lstrip v else lstrip u ++ v.
Proof.
  induction u as [|c u IH]; simpl; [done|].
  destruct (isspace c); simpl; done.
Qed.

Lemma lstrip_all_space (s : str) : forallb isspace s = true → lstrip s = [].
Proof.
  induction s as [|c s IH]; simpl; [done|].
  destruct (isspace c); simpl; [done | discriminate].
Qed.

Lemma forallb_rev (f : N → bool) (s : str) : forallb f (rev s) = forallb f s.
Proof.
  induction s as [|c s IH]; simpl; [done|].
  rewrite forallb_app, IH. simpl. rewrite andb_true_r. apply andb_comm.
Qed.

Lemma rstrip_cons (c : N) (s : str) :
  rstrip (c :: s) = if isspace c && forallb isspace s then [] else c :: rstrip s.
Proof.
  unfold rstrip. simpl. rewrite lstrip_app, forallb_rev.
  destruct (forallb isspace s) eqn:E.
  - rewrite andb_true_r. simpl.
    rewrite (lstrip_all_space (rev s)) by (by rewrite forallb_rev).
    by destruct (isspace c).
  - rewrite andb_false_r. by rewrite rev_app_distr.
Qed.

Lemma lstrip_idemp (s : str) : lstrip (lstrip s) = lstrip s.
Proof.
  induction s as [|c s IH]; simpl; [done|].
  destruct (isspace c) eqn:E; [done|]. simpl. by rewrite E.
Qed.

Lemma rstrip_idemp (s : str) : rstrip (rstrip s) = rstrip s.
Proof. unfold rstrip. by rewrite rev_involutive, lstrip_idemp. Qed.

Lemma lstrip_rstrip (s : str) : lstrip (rstrip s) = rstrip (lstrip s).
Proof.
  induction s as [|c s IH]; [done|].
  rewrite rstrip_cons. simpl.
  destruct (isspace c) eqn:E; simpl.
  - destruct (forallb isspace s) eqn:A.
    + by rewrite (lstrip_all_space s A).
    + simpl. by rewrite E.
  - rewrite E. rewrite rstrip_cons, E. done.
Qed.

Lemma strip_lstrip (s : str) : strip (lstrip s) = strip s.
Proof. unfold strip. by rewrite <- lstrip_rstrip, lstrip_idemp. Qed.

Lemma strip_rstrip (s : str) : strip (rstrip s) = strip s.
Proof. unfold strip. by rewrite rstrip_idemp. Qed.

Lemma isspace_not_colon (c : N) : isspace c = true → (c =? 58) = false.
Proof.
  intros H. destruct (N.eqb_spec c 58) as [->|]; [|done].
  vm_compute in H. discriminate H.
Qed.

Lemma linebreak_free_no_LF (s : str) :
  Forall (fun c => is_linebreak c = false) s → Forall (fun c => c ≠ 10) s.
Proof.
  intros Hs. apply (Forall_impl _ _ _ Hs). intros c H ->. vm_compute in H. discriminate H.
Qed.

Lemma splitlines_from_free (n : nat) (s cur : str) :
  (length s ≤ n)%nat →
  Forall (fun c => is_linebreak c = false) cur →
  Forall (Forall (fun c => is_linebreak c = false)) (splitlines_from cur s).
Proof.
  revert s cur. induction n as [|n IH]; intros s cur Hn Hcur.
  - destruct s; [|simpl in Hn; lia]. simpl.
    destruct cur; [constructor|]. constructor; [|constructor].
    by apply Forall_rev.
  - destruct s as [|c r]; simpl.
    + destruct cur; [constructor|]. constructor; [|constructor].
      by apply Forall_rev.
    + simpl in Hn. destruct (is_linebreak c) eqn:E.
      * constructor; [by apply Forall_rev|].
        destruct (c =? 13); [|apply IH; [lia | constructor]].
        destruct r as [|d r']; [apply IH; [simpl; lia | constructor]|].
        destruct (d =? 10); apply IH; simpl in *; try lia; constructor.
      * apply IH; [lia|]. by constructor.
Qed.

(** No line of [splitlines] contains a line boundary. *)
Lemma splitlines_free (s : str) :
  Forall (Forall (fun c => is_linebreak c = false)) (splitlines s).
Proof. by apply (splitlines_from_free (length s)). Qed.

End Trimming.

(** ** The two patterns of the provider *)

Section Stars.
Local Open Scope N_scope.
Context {R : Type}.

(** A starred [\s] whose continuation succeeds after the longest run. *)
Lemma greedy_space_first (k : str → option R) (acc s : str) (x : R) :
  k (lstrip s) = Some x → Re.greedy Re.Space (fun _ r => k r) acc s = Some x.
Proof.
  revert acc. induction s as [|c s IH]; intros acc; simpl; [done|].
  destruct (isspace c); [|done]. intros Hk. by rewrite (IH _ Hk).
Qed.

(** A starred [\s] whose continuation fails on whatever begins with a
    space: only the longest run matters. *)
Lemma greedy_space_skip (k : str → option R) (acc s : str) :
  (∀ c r, isspace c = true → k (c :: r) = None) →
  Re.greedy Re.Space (fun _ r => k r) acc s = k (lstrip s).
Proof.
  intros Hk. revert acc. induction s as [|c s IH]; intros acc; simpl; [done|].
  destruct (isspace c) eqn:E; [|done]. rewrite IH.
  destruct (k (lstrip s)); [done|]. by apply Hk.
Qed.

(** A star whose continuation fails everywhere. *)
Lemma greedy_none (cls : Re.charclass) (k : str → option R) (acc s : str) :
  (∀ r, r `suffix_of` s → k r = None) →
  Re.greedy cls (fun _ r => k r) acc s = None.
Proof.
  revert acc. induction s as [|c s IH]; intros acc Hk; simpl.
  - by apply Hk.
  - rewrite IH by (intros r Hr; apply Hk; by apply suffix_cons_r).
    rewrite (Hk (c :: s)) by done. by destruct (Re.in_class cls c).
Qed.

(** A final starred dot takes the rest of a line. *)
Lemma greedy_dot_all (f : str → R) (acc r : str) :
  Forall (fun c => c ≠ 10) r →
  Re.greedy Re.Dot (fun m _ => Some (f m)) acc r = Some (f (rev acc ++ r)).
Proof.
  revert acc. induction r as [|c r IH]; intros acc Hr; simpl.
  - by rewrite app_nil_r.
  - apply Forall_cons in Hr as [Hc Hr].
    destruct (N.eqb_spec c 10) as [->|_]; [congruence|]. simpl.
    rewrite IH by done. simpl. by rewrite <- app_assoc.
Qed.

End Stars.

Section FieldPattern.
Local Open Scope N_scope.
Import netsh_wifi_provider.

Lemma split_colon_LF_free (r a b : str) :
  Forall (fun c => c ≠ 10) r → spec.split_colon r = Some (a, b) →
  Forall (fun c => c ≠ 10) a ∧ Forall (fun c => c ≠ 10) b.
Proof.
  revert a. induction r as [|c r IH]; intros a Hr; simpl; [done|].
  apply Forall_cons in Hr as [Hc Hr].
  destruct (c =? 58).
  - intros [= <- <-]. split; [constructor | done].
  - destruct (spec.split_colon r) as [[a' b']|]; [|done].
    intros [= <- <-]. destruct (IH a' Hr eq_refl). split; [by constructor | done].
Qed.

Lemma lstrip_LF_free (r : str) :
  Forall (fun c => c ≠ 10) r → Forall (fun c => c ≠ 10) (lstrip r).
Proof.
  induction r as [|c r IH]; intros Hr; simpl; [done|].
  destruct (isspace c); [|done]. apply IH. by apply Forall_cons in Hr as [_ Hr].
Qed.

Lemma char_match_colon (ic : bool) (c : N) : Re.char_match ic 58 c = (c =? 58).
Proof. by destruct ic. Qed.

(** The tail of both patterns: colon, spaces, and the captured rest. *)
Lemma run_colon_value (ic : bool) (caps : list str) (r : str) :
  Forall (fun c => c ≠ 10) r →
  Re.run ic [Re.Lit (py ":"); Re.Star Re.Space; Re.Group true Re.Dot] caps r
  = match r with
    | c :: r' => if c =? 58 then Some (rev (lstrip r' :: caps)) else None
    | [] => None
    end.
Proof.
  intros Hr. change (py ":") with [58]. cbn [Re.run Re.lit_prefix].
  destruct r as [|c r']; [done|]. rewrite char_match_colon.
  destruct (c =? 58); [|done].
  apply Forall_cons in Hr as [_ Hr].
  apply (greedy_space_first
           (fun r => Re.greedy Re.Dot (fun m _ => Some (rev (m :: caps))) [] r)).
  rewrite (greedy_dot_all (fun m => rev (m :: caps))) by (by apply lstrip_LF_free).
  done.
Qed.

(** Spaces, colon, spaces, and the captured rest. *)
Lemma run_spaces_colon (ic : bool) (caps : list str) (r : str) :
  Forall (fun c => c ≠ 10) r →
  Re.run ic [Re.Star Re.Space; Re.Lit (py ":"); Re.Star Re.Space; Re.Group true Re.Dot]
    caps r
  = match lstrip r with
    | c :: r' => if c =? 58 then Some (rev (lstrip r' :: caps)) else None
    | [] => None
    end.
Proof.
  intros Hr.
  change (Re.run ic (Re.Star Re.Space :: ?rest) caps r)
    with (Re.greedy Re.Space (fun _ r' => Re.run ic rest caps r') [] r).
  rewrite greedy_space_skip.
  - by rewrite run_colon_value by (by apply lstrip_LF_free).
  - intros c r' Hc. change (py ":") with [58].
    cbn [Re.run Re.lit_prefix]. rewrite char_match_colon.
    by rewrite (isspace_not_colon c Hc).
Qed.

Lemma lstrip_colon {A : Type} (F : str → option A) (r : str) :
  match lstrip r with
  | c :: r' => if c =? 58 then F r' else None
  | [] => None
  end
  = match spec.split_colon r with
    | Some (a, b) => if forallb isspace a then F b else None
    | None => None
    end.
Proof.
  induction r as [|c r IH]; simpl; [done|].
  destruct (isspace c) eqn:E.
  - rewrite (isspace_not_colon c E), IH.
    destruct (spec.split_colon r) as [[a b]|]; [|done]. simpl. by rewrite E.
  - destruct (c =? 58); [done|].
    destruct (spec.split_colon r) as [[a b]|]; [|done]. simpl. by rewrite E.
Qed.

Lemma run_spaces_colon_value (caps : list str) (r : str) :
  Forall (fun c => c ≠ 10) r →
  Re.run false [Re.Star Re.Space; Re.Lit (py ":"); Re.Star Re.Space; Re.Group true Re.Dot]
    caps r
  = match spec.split_colon r with
    | Some (a, b) => if forallb isspace a then Some (rev (lstrip b :: caps)) else None
    | None => None
    end.
Proof.
  intros Hr. rewrite run_spaces_colon by done.
  apply (lstrip_colon (fun b => Some (rev (lstrip b :: caps)))).
Qed.

(** The lazy group, from the characters [acc] already taken. *)
Lemma lazy_label (caps : list str) (acc r : str) :
  Forall (fun c => c ≠ 10) r →
  Re.lazy Re.Dot
    (fun m r' =>
       Re.run false
         [Re.Star Re.Space; Re.Lit (py ":"); Re.Star Re.Space; Re.Group true Re.Dot]
         (m :: caps) r') acc r
  = match spec.split_colon r with
    | Some (a, b) => Some (rev (lstrip b :: (rev acc ++ rstrip a) :: caps))
    | None => None
    end.
Proof.
  revert acc. induction r as [|c r IH]; intros acc Hr.
  - cbn [Re.lazy]. by rewrite run_spaces_colon_value.
  - cbn [Re.lazy]. rewrite run_spaces_colon_value by done.
    apply Forall_cons in Hr as [Hc Hr].
    cbn [spec.split_colon].
    destruct (c =? 58) eqn:E58.
    + cbn [forallb]. change (rstrip []) with (@nil N). by rewrite app_nil_r.
    + cbn [Re.in_class]. destruct (N.eqb_spec c 10) as [->|_]; [congruence|]. cbn [negb].
      rewrite IH by done.
      destruct (spec.split_colon r) as [[a b]|]; [|done].
      rewrite rstrip_cons. cbn [forallb].
      destruct (isspace c && forallb isspace a) eqn:S.
      * by rewrite app_nil_r.
      * change (rev (c :: acc)) with (rev acc ++ [c]). by rewrite <- app_assoc.
Qed.

Lemma split_colon_lstrip (r : str) :
  spec.split_colon (lstrip r)
  = match spec.split_colon r with
    | Some (a, b) => Some (lstrip a, b)
    | None => None
    end.
Proof.
  induction r as [|c r IH]; simpl; [done|].
  destruct (isspace c) eqn:E.
  - rewrite (isspace_not_colon c E), IH.
    destruct (spec.split_colon r) as [[a b]|]; [|done]. simpl. by rewrite E.
  - simpl. destruct (c =? 58); [done|].
    destruct (spec.split_colon r) as [[a b]|]; [|done]. simpl. by rewrite E.
Qed.

Lemma split_colon_suffix (r s : str) :
  r `suffix_of` s → spec.split_colon s = None → spec.split_colon r = None.
Proof.
  intros [pre ->]. induction pre as [|c pre IH]; simpl; [done|].
  destruct (c =? 58); [done|].
  destruct (spec.split_colon (pre ++ r)) as [[a b]|]; [done|]. auto.
Qed.

Lemma suffix_LF_free (r s : str) :
  r `suffix_of` s → Forall (fun c => c ≠ 10) s → Forall (fun c => c ≠ 10) r.
Proof. intros [pre ->] H. by apply Forall_app in H as [_ H]. Qed.

(** What [re.match] finds with the pattern of the field lines, on a line:
    the text before the first colon, without its surrounding space, and the
    text after it, without its leading space. *)
Lemma field_regex_match (line : str) :
  Forall (fun c => c ≠ 10) line →
  Re.re_match field_regex line
  = match spec.split_colon line with
    | Some (a, b) => Some [rstrip (lstrip a); lstrip b]
    | None => None
    end.
Proof.
  intros Hl. unfold Re.re_match, field_regex. cbn [Re.items Re.ignorecase].
  change (Re.run false (Re.Star Re.Space :: Re.Group false Re.Dot :: ?rest) [] line)
    with (Re.greedy Re.Space
            (fun _ r => Re.lazy Re.Dot (fun m r' => Re.run false rest (m :: []) r') [] r)
            [] line).
  destruct (spec.split_colon line) as [[a b]|] eqn:E.
  - apply (greedy_space_first
             (fun r => Re.lazy Re.Dot (fun m r' => Re.run false _ [m] r') [] r)).
    rewrite lazy_label by (by apply lstrip_LF_free).
    rewrite split_colon_lstrip, E. done.
  - apply (greedy_none Re.Space
             (fun r => Re.lazy Re.Dot (fun m r' => Re.run false _ [m] r') [] r)).
    intros r Hr. rewrite lazy_label by (by eapply suffix_LF_free).
    by rewrite (split_colon_suffix r line).
Qed.

(** One step of the loop of [_parse_netsh_output] on a line. *)
Lemma parse_loop_entry (d : gmap str str) (line : str) :
  Forall (fun c => c ≠ 10) line →
  _parse_netsh_output_loop d line
  = match spec.field_entry line with
    | Some (k, v) => <[k := v]> d
    | None => d
    end.
Proof.
  intros Hl. unfold _parse_netsh_output_loop, spec.field_entry.
  rewrite field_regex_match by done.
  destruct (spec.split_colon line) as [[a b]|]; [|done].
  cbn [Re.group pred nth].
  by rewrite strip_rstrip, !strip_lstrip.
Qed.

End FieldPattern.

(** ** The field-block parser *)

Section FieldBlock.
Import netsh_wifi_provider.

(** The loop of [_parse_netsh_output], in the terms of the specification. *)
Lemma parse_loop_fold (lines : list str) (d : gmap str str) :
  Forall (Forall (fun c => c ≠ 10%N)) lines →
  foldl _parse_netsh_output_loop d lines
  = foldl (fun d line =>
             match spec.field_entry line with
             | Some (k, v) => <[k := v]> d
             | None => d
             end) d lines.
Proof.
  revert d. induction lines as [|line lines IH]; intros d Hl; [done|].
  apply Forall_cons in Hl as [Hline Hl]. cbn [foldl].
  rewrite parse_loop_entry by done. by apply IH.
Qed.

Lemma fold_entries_lookup (lines : list str) (d : gmap str str) (k v : str) :
  foldl (fun d line =>
           match spec.field_entry line with
           | Some (k, v) => <[k := v]> d
           | None => d
           end) d lines !! k = Some v
  ↔ (∃ before line after,
        lines = before ++ line :: after ∧ spec.field_entry line = Some (k, v)
        ∧ ∀ l, l ∈ after → ∀ v', spec.field_entry l ≠ Some (k, v'))
    ∨ ((∀ l, l ∈ lines → ∀ v', spec.field_entry l ≠ Some (k, v')) ∧ d !! k = Some v).
Proof.
  revert d. induction lines as [|x lines IH]; intros d; cbn [foldl].
  - split.
    + intros Hd. right. split; [|done]. intros l Hl. by apply elem_of_nil in Hl.
    + intros [(before & line & after & Heq & _)|[_ Hd]]; [by destruct before | done].
  - rewrite IH. split.
    + intros [(before & line & after & -> & He & Hafter)|[Hno Hd]].
      * left. by exists (x :: before), line, after.
      * destruct (spec.field_entry x) as [[k' v']|] eqn:Ex.
        -- destruct (decide (k' = k)) as [->|Hne].
           ++ rewrite lookup_insert_eq in Hd. injection Hd as ->.
              left. by exists [], x, lines.
           ++ rewrite lookup_insert_ne in Hd by done. right. split; [|done].
              intros l [->|Hl]%elem_of_cons v''; [congruence | by apply Hno].
        -- right. split; [|done].
           intros l [->|Hl]%elem_of_cons v''; [congruence | by apply Hno].
    + intros [(before & line & after & Heq & He & Hafter)|[Hno Hd]].
      * destruct before as [|y before].
        -- injection Heq as -> ->. right. split; [done|].
           rewrite He. apply lookup_insert_eq.
        -- injection Heq as -> ->. left. by exists before, line, after.
      * right. split; [intros l Hl; apply Hno; by apply list_elem_of_further|].
        destruct (spec.field_entry x) as [[k' v']|] eqn:Ex; [|done].
        rewrite lookup_insert_ne; [done|]. intros ->.
        by apply (Hno x (list_elem_of_here _ _) v').
Qed.

(** C6.  The field-block parser maps a label to a value exactly when some
    line of the text has the form label, colon, value (split at its first
    colon) with that label and that value once both are trimmed, and no
    later line has the same trimmed label: every such line contributes its
    entry, and of the lines with one label the last one wins. *)
Theorem parse_field_block_last_wins (text : str) (k v : str) :
  _parse_netsh_output text !! k = Some v
  ↔ ∃ before line after,
      splitlines text = before ++ line :: after
      ∧ spec.field_entry line = Some (k, v)
      ∧ ∀ l, l ∈ after → ∀ v', spec.field_entry l ≠ Some (k, v').
Proof.
  unfold _parse_netsh_output.
  rewrite parse_loop_fold.
  - rewrite fold_entries_lookup. split; [|by left].
    intros [H|[_ H]]; [done|]. by rewrite lookup_empty in H.
  - eapply Forall_impl; [apply splitlines_free|].
    intros line. apply linebreak_free_no_LF.
Qed.

End FieldBlock.

(** ** The profile-name parser *)

Section Listing.
Local Open Scope N_scope.
Import netsh_wifi_provider.

Lemma lit_prefix_suffix (ic : bool) (l s r : str) :
  Re.lit_prefix ic l s = Some r → r `suffix_of` s.
Proof.
  revert s. induction l as [|p l IH]; intros s; simpl.
  - by intros [= ->].
  - destruct s as [|c s]; [done|]. destruct (Re.char_match ic p c); [|done].
    intros H. by apply suffix_cons_r, IH.
Qed.

(** The alternation of the labels and what follows it. *)
Lemma run_labels (labels : list str) (caps : list str) (s : str) :
  Forall (fun c => c ≠ 10) s →
  Re.run true
    [Re.Alt labels; Re.Star Re.Space; Re.Lit (py ":"); Re.Star Re.Space;
     Re.Group true Re.Dot] caps s
  = (fun rest => rev (lstrip rest :: caps)) <$> spec.label_colon labels s.
Proof.
  intros Hs. cbn [Re.run].
  induction labels as [|label labels IH]; [done|].
  cbn [spec.label_colon]. unfold spec.after_label at 1.
  destruct (Re.lit_prefix true label s) as [r|] eqn:E; [|exact IH].
  change (Re.greedy Re.Space ?k [] r)
    with (Re.run true
            [Re.Star Re.Space; Re.Lit (py ":"); Re.Star Re.Space; Re.Group true Re.Dot]
            caps r).
  rewrite run_spaces_colon
    by (eapply suffix_LF_free; [by eapply lit_prefix_suffix | done]).
  destruct (lstrip r) as [|c rest]; [exact IH|].
  destruct (c =? 58); [done | exact IH].
Qed.

(** The leading starred dot: the last place of the line where the rest of
    the pattern matches. *)
Lemma greedy_dot_label (caps : list str) (acc s : str) :
  Forall (fun c => c ≠ 10) s →
  Re.greedy Re.Dot
    (fun _ r =>
       Re.run true
         [Re.Alt spec.profile_labels; Re.Star Re.Space; Re.Lit (py ":");
          Re.Star Re.Space; Re.Group true Re.Dot] caps r) acc s
  = (fun rest => rev (lstrip rest :: caps)) <$> spec.last_label s.
Proof.
  revert acc. induction s as [|c s IH]; intros acc Hs.
  - cbn [Re.greedy spec.last_label]. by rewrite run_labels.
  - cbn [Re.greedy spec.last_label Re.in_class].
    pose proof Hs as Hs'. apply Forall_cons in Hs' as [Hc Hs'].
    destruct (N.eqb_spec c 10) as [->|_]; [congruence|]. cbn [negb].
    rewrite IH by done.
    destruct (spec.last_label s) as [rest|]; [done|].
    cbn [fmap option_fmap option_map]. by rewrite run_labels.
Qed.

Lemma profile_regex_match (line : str) :
  Forall (fun c => c ≠ 10) line →
  Re.re_match profile_regex line = (fun rest => [lstrip rest]) <$> spec.last_label line.
Proof.
  intros Hl. unfold Re.re_match, profile_regex. cbn [Re.items Re.ignorecase].
  exact (greedy_dot_label [] [] line Hl).
Qed.

Lemma last_label_None_tail (c : N) (s : str) :
  spec.last_label (c :: s) = None → spec.last_label s = None.
Proof. cbn [spec.last_label]. by destruct (spec.last_label s). Qed.

(** [search] finds nothing more than a match at the start of the line. *)
Lemma profile_regex_search (line : str) :
  Forall (fun c => c ≠ 10) line →
  Re.search profile_regex line = (fun rest => [lstrip rest]) <$> spec.last_label line.
Proof.
  induction line as [|c line IH]; intros Hl.
  - cbn [Re.search]. rewrite profile_regex_match by done.
    by destruct (spec.last_label []).
  - cbn [Re.search]. rewrite profile_regex_match by done.
    destruct (spec.last_label (c :: line)) as [rest|] eqn:E; [done|].
    cbn [fmap option_fmap option_map].
    apply Forall_cons in Hl as [_ Hl]. rewrite IH by done.
    by rewrite (last_label_None_tail c line E).
Qed.

(** One step of the loop of [list_profiles] on a line. *)
Lemma list_profiles_loop_spec (profiles : list str) (line : str) :
  Forall (fun c => c ≠ 10) line →
  list_profiles_loop profiles line
  = match spec.profile_name_of line with
    | Some profile_name => profiles ++ [profile_name]
    | None => profiles
    end.
Proof.
  intros Hl. unfold list_profiles_loop, spec.profile_name_of, spec.captured_name.
  rewrite profile_regex_search by done.
  destruct (spec.last_label line) as [rest|]; [|done].
  cbn [fmap option_fmap option_map Re.group pred nth].
  rewrite strip_lstrip. by destruct (strip rest).
Qed.

Lemma list_profiles_loop_fold (lines : list str) (profiles : list str) :
  Forall (Forall (fun c => c ≠ 10)) lines →
  foldl list_profiles_loop profiles lines
  = profiles ++ omap spec.profile_name_of lines.
Proof.
  revert profiles. induction lines as [|line lines IH]; intros profiles Hl.
  - by rewrite app_nil_r.
  - apply Forall_cons in Hl as [Hline Hl]. cbn [foldl omap list_omap].
    rewrite IH, list_profiles_loop_spec by done.
    destruct (spec.profile_name_of line); [|done]. by rewrite <- app_assoc.
Qed.

(** C7, as amended.  The profile-name parser returns, in the order of the
    lines of the text, the names captured from the lines that match a label
    variant (what follows the colon after the last label of the line,
    trimmed), except the names that are empty; the lines that do not match
    contribute nothing. *)
Theorem parse_profiles_in_source_order (output : str) :
  parse_profiles output = omap spec.profile_name_of (splitlines output).
Proof.
  unfold parse_profiles. rewrite list_profiles_loop_fold; [done|].
  eapply Forall_impl; [apply splitlines_free|].
  intros line. apply linebreak_free_no_LF.
Qed.

(** C7, as stated, fails: of three lines that match a label variant, the
    parser returns the names of two, because the name captured from the
    other one is empty. *)
Lemma parse_profiles_drops_empty_name :
  let output := py "All User Profile     : Home
All User Profile     : 
All User Profile     : Cafe" in
  spec.captured_name <$> splitlines output
    = [Some (py "Home"); Some (py ""); Some (py "Cafe")]
  ∧ Forall (fun line => is_Some (Re.search profile_regex line)) (splitlines output)
  ∧ parse_profiles output = [py "Home"; py "Cafe"]
  ∧ parse_profiles output ≠ [py "Home"; py ""; py "Cafe"].
Proof.
  intros output. split; [vm_compute; reflexivity|]. split; [|split].
  - assert (splitlines output
            = [py "All User Profile     : Home"; py "All User Profile     : ";
               py "All User Profile     : Cafe"]) as -> by (vm_compute; reflexivity).
    repeat constructor; vm_compute; by eexists.
  - vm_compute. reflexivity.
  - vm_compute. discriminate.
Qed.

(** The listing of the test of the provider: three lines that match, three
    names, in the order of the text. *)
Example parse_profiles_three_names :
  parse_profiles (py "
Perfiles en la interfaz Wi-Fi:

    Perfil de todos los usuarios     : MiRed1
    Perfil de todos los usuarios     : MiRed Espacio
    Perfil de todos los usuarios     : MiRed3
") = [py "MiRed1"; py "MiRed Espacio"; py "MiRed3"].
Proof. vm_compute. reflexivity. Qed.

End Listing.

(** * Further properties of the code *)

(** ** Trimming, again *)

Section TrimmingFacts.
Local Open Scope N_scope.

Lemma strip_idemp (s : str) : strip (strip s) = strip s.
Proof.
  unfold strip. by rewrite <- (lstrip_rstrip (rstrip s)), rstrip_idemp, lstrip_idemp.
Qed.

Lemma lstrip_Forall (Q : N → Prop) (s : str) : Forall Q s → Forall Q (lstrip s).
Proof.
  induction s as [|c s IH]; intros Hs; simpl; [done|].
  destruct (isspace c); [|done]. apply IH. by apply Forall_cons in Hs as [_ Hs].
Qed.

Lemma rstrip_Forall (Q : N → Prop) (s : str) : Forall Q s → Forall Q (rstrip s).
Proof.
  intros Hs. unfold rstrip. apply Forall_rev, lstrip_Forall. by apply Forall_rev.
Qed.

Lemma strip_Forall (Q : N → Prop) (s : str) : Forall Q s → Forall Q (strip s).
Proof. intros Hs. by apply lstrip_Forall, rstrip_Forall. Qed.

Lemma splitlines_from_Forall (Q : N → Prop) (n : nat) (s cur : str) :
  (length s ≤ n)%nat → Forall Q cur → Forall Q s →
  Forall (Forall Q) (splitlines_from cur s).
Proof.
  revert s cur. induction n as [|n IH]; intros s cur Hn Hcur Hs.
  - destruct s; [|simpl in Hn; lia]. simpl.
    destruct cur; [constructor|]. constructor; [|constructor].
    by apply Forall_rev.
  - destruct s as [|c r]; simpl.
    + destruct cur; [constructor|]. constructor; [|constructor].
      by apply Forall_rev.
    + simpl in Hn. apply Forall_cons in Hs as [Hc Hr].
      destruct (is_linebreak c).
      * constructor; [by apply Forall_rev|].
        destruct (c =? 13); [|apply IH; [lia | constructor | done]].
        destruct r as [|d r']; [apply IH; [simpl; lia | constructor | done]|].
        apply Forall_cons in Hr as [Hd Hr'].
        destruct (d =? 10); apply IH; simpl in *; try lia; try constructor; done.
      * apply IH; [lia | by constructor | done].
Qed.

(** The lines of a text hold characters of the text only. *)
Lemma splitlines_Forall (Q : N → Prop) (s : str) :
  Forall Q s → Forall (Forall Q) (splitlines s).
Proof. intros Hs. by apply (splitlines_from_Forall Q (length s)). Qed.

Lemma split_colon_None (line : str) :
  Forall (fun c => c ≠ 58) line → spec.split_colon line = None.
Proof.
  induction line as [|c line IH]; intros Hl; simpl; [done|].
  apply Forall_cons in Hl as [Hc Hl].
  destruct (N.eqb_spec c 58); [done|]. by rewrite IH.
Qed.

Lemma split_colon_Forall (Q : N → Prop) (line a b : str) :
  Forall Q line → spec.split_colon line = Some (a, b) →
  Forall Q a ∧ Forall Q b ∧ Forall (fun c => c ≠ 58) a.
Proof.
  revert a. induction line as [|c line IH]; intros a Hl; simpl; [done|].
  apply Forall_cons in Hl as [Hc Hl].
  destruct (N.eqb_spec c 58) as [->|Hne].
  - intros [= <- <-]. by repeat split.
  - destruct (spec.split_colon line) as [[a' b']|]; [|done].
    intros [= <- <-]. destruct (IH a' Hl eq_refl) as (Ha & Hb & Hno).
    split; [by constructor|]. split; [done | by constructor].
Qed.

End TrimmingFacts.

(** ** The provider, end to end *)

Section Provider.
Import netsh_wifi_provider command_executor.

(** The command line of the query of one profile. *)
Local Abbreviation query p :=
  [py "netsh"; py "wlan"; py "show"; py "profile"; p; py "key=clear"].

Lemma parse_lines_fold (text : str) :
  _parse_netsh_output text
  = foldl (fun d line =>
             match spec.field_entry line with
             | Some (k, v) => <[k := v]> d
             | None => d
             end) ∅ (splitlines text).
Proof.
  unfold _parse_netsh_output. apply parse_loop_fold.
  eapply Forall_impl; [apply splitlines_free|].
  intros line. apply linebreak_free_no_LF.
Qed.

Lemma parse_lookup (text : str) (k v : str) :
  _parse_netsh_output text !! k = Some v
  ↔ ∃ before line after,
      splitlines text = before ++ line :: after
      ∧ spec.field_entry line = Some (k, v)
      ∧ ∀ l, l ∈ after → ∀ v', spec.field_entry l ≠ Some (k, v').
Proof.
  rewrite parse_lines_fold, fold_entries_lookup. split; [|by left].
  intros [H|[_ H]]; [done|]. by rewrite lookup_empty in H.
Qed.

Lemma parse_without_colon (text : str) :
  Forall (fun c => c ≠ 58%N) text → _parse_netsh_output text = ∅.
Proof.
  intros Ht. rewrite parse_lines_fold.
  pose proof (splitlines_Forall _ text Ht) as Hl.
  induction (splitlines text) as [|line lines IH]; [done|].
  apply Forall_cons in Hl as [Hline Hl]. cbn [foldl].
  unfold spec.field_entry at 2. rewrite (split_colon_None line Hline). by apply IH.
Qed.

Lemma classify_not_None (self : NetshWiFiProvider) (d : gmap str str) (p : str) :
  classify self d p ≠ Return None.
Proof.
  rewrite classify_eq. destruct (first_present _ d); [done|].
  destruct (security_absent _ d); [done|].
  by destruct (match next_key _ d with Some ((_ :: _) as k) => _ | _ => false end).
Qed.

Lemma classify_raises (self : NetshWiFiProvider) (d : gmap str str) (p : str) (e : exn) :
  classify self d p = Raise e →
  e = OpenNetworkException p ∨ e = AdminRightsRequiredError p (spec.admin_message self p).
Proof.
  rewrite classify_eq. destruct (first_present _ d); [done|].
  destruct (security_absent _ d); [intros [= <-]; by left|].
  destruct (match next_key _ d with Some ((_ :: _) as k) => _ | _ => false end);
    intros [= <-]; auto.
Qed.

(** X1.  [get_password] returns [None] exactly when the command of the
    query exits with a status other than zero ([CalledProcessError]); an
    output that is read never gives [None]. *)
Theorem get_password_None_iff_command_failed (self : NetshWiFiProvider) (p : str) :
  get_password self p = Return None
  ↔ ∃ returncode cmd stdout stderr,
      run (command_executor self) (query p)
      = Raise (CalledProcessError returncode cmd stdout stderr).
Proof.
  unfold get_password.
  destruct (run (command_executor self) (query p)) as [output|e].
  - split; [intros H; by apply classify_not_None in H|].
    by intros (? & ? & ? & ? & ?).
  - destruct e; (split; [try done | by intros (? & ? & ? & ? & ?)]).
    intros _. by eexists _, _, _, _.
Qed.

(** X2.  When the output of the query is read, the password returned is
    the trimmed value of the last line whose trimmed label is "Key Content",
    whatever the other lines say. *)
Theorem get_password_recovers_last_key_content (self : NetshWiFiProvider)
    (p output : str) (before after : list str) (line v : str) :
  run (command_executor self) (query p) = Return output →
  splitlines output = before ++ line :: after →
  spec.field_entry line = Some (py "Key Content", v) →
  (∀ l, l ∈ after → ∀ v', spec.field_entry l ≠ Some (py "Key Content", v')) →
  get_password self p = Return (Some v).
Proof.
  intros Hrun Hsplit Hline Hafter. unfold get_password. rewrite Hrun.
  rewrite classify_eq.
  assert (_parse_netsh_output output !! py "Key Content" = Some v) as Hk
    by (apply parse_lookup; by exists before, line, after).
  unfold spec.key_content_labels. cbn [first_present]. by rewrite Hk.
Qed.

Lemma get_password_recovers_last_key_content_witness :
  let output := py "    Authentication         : WPA2-Personal
    Key Content            : old
    Security key           : Present
    Key Content            :   secret123  " in
  run (command_executor sample2.netsh) (query (py "Home")) = Return output
  ∧ splitlines output
    = [py "    Authentication         : WPA2-Personal";
       py "    Key Content            : old";
       py "    Security key           : Present"]
      ++ py "    Key Content            :   secret123  " :: []
  ∧ spec.field_entry (py "    Key Content            :   secret123  ")
    = Some (py "Key Content", py "secret123")
  ∧ (∀ l, l ∈ @nil str → ∀ v', spec.field_entry l ≠ Some (py "Key Content", v'))
  ∧ get_password sample2.netsh (py "Home") = Return (Some (py "secret123")).
Proof.
  intros output.
  assert (run (command_executor sample2.netsh) (query (py "Home")) = Return output) as H1
    by (vm_compute; reflexivity).
  assert (splitlines output
          = [py "    Authentication         : WPA2-Personal";
             py "    Key Content            : old";
             py "    Security key           : Present"]
            ++ py "    Key Content            :   secret123  " :: []) as H2
    by (vm_compute; reflexivity).
  assert (spec.field_entry (py "    Key Content            :   secret123  ")
          = Some (py "Key Content", py "secret123")) as H3
    by (vm_compute; reflexivity).
  assert (∀ l, l ∈ @nil str → ∀ v', spec.field_entry l ≠ Some (py "Key Content", v')) as H4
    by (intros l Hl; by apply elem_of_nil in Hl).
  split; [exact H1|]. split; [exact H2|]. split; [exact H3|]. split; [exact H4|].
  exact (get_password_recovers_last_key_content sample2.netsh (py "Home") output
           _ _ _ _ H1 H2 H3 H4).
Defined.

(** X3.  What [get_password] raises is [OpenNetworkException] or
    [AdminRightsRequiredError], for the profile that was queried, or else
    the exception that the command runner raised, which is then no
    [CalledProcessError]. *)
Theorem get_password_raises_only (self : NetshWiFiProvider) (p : str) (e : exn) :
  get_password self p = Raise e →
  e = OpenNetworkException p
  ∨ e = AdminRightsRequiredError p (spec.admin_message self p)
  ∨ (run (command_executor self) (query p) = Raise e
     ∧ ∀ returncode cmd stdout stderr, e ≠ CalledProcessError returncode cmd stdout stderr).
Proof.
  unfold get_password.
  destruct (run (command_executor self) (query p)) as [output|e'].
  - intros H. apply classify_raises in H as [->| ->]; auto.
  - destruct e'; try done; intros [= <-]; right; right; by split.
Qed.

Lemma get_password_raises_only_witness :
  get_password sample2.netsh (py "Office") = Raise (OtherException (py "FileNotFoundError"))
  ∧ (OtherException (py "FileNotFoundError") = OpenNetworkException (py "Office")
     ∨ OtherException (py "FileNotFoundError")
       = AdminRightsRequiredError (py "Office") (spec.admin_message sample2.netsh (py "Office"))
     ∨ (run (command_executor sample2.netsh) (query (py "Office"))
        = Raise (OtherException (py "FileNotFoundError"))
        ∧ ∀ returncode cmd stdout stderr,
            OtherException (py "FileNotFoundError")
            ≠ CalledProcessError returncode cmd stdout stderr)).
Proof.
  assert (get_password sample2.netsh (py "Office")
          = Raise (OtherException (py "FileNotFoundError"))) as H
    by (vm_compute; reflexivity).
  split; [exact H|].
  exact (get_password_raises_only sample2.netsh (py "Office") _ H).
Defined.

(** X4.  An output without any colon, the empty output among them, is
    classified as a lack of administrator rights. *)
Theorem get_password_of_output_without_colon (self : NetshWiFiProvider) (p output : str) :
  run (command_executor self) (query p) = Return output →
  Forall (fun c => c ≠ 58%N) output →
  get_password self p
  = Raise (AdminRightsRequiredError p (spec.admin_message self p)).
Proof.
  intros Hrun Hout. unfold get_password. rewrite Hrun.
  by rewrite (parse_without_colon output Hout), classify_eq.
Qed.

Lemma get_password_of_output_without_colon_witness :
  let self := __init__ sample2.silent sample.english in
  run (command_executor self) (query (py "Home")) = Return []
  ∧ Forall (fun c => c ≠ 58%N) (@nil N)
  ∧ get_password self (py "Home")
    = Raise (AdminRightsRequiredError (py "Home") (spec.admin_message self (py "Home"))).
Proof.
  intros self.
  assert (run (command_executor self) (query (py "Home")) = Return []) as H1
    by reflexivity.
  assert (Forall (fun c => c ≠ 58%N) (@nil N)) as H2 by constructor.
  split; [exact H1|]. split; [exact H2|].
  exact (get_password_of_output_without_colon self (py "Home") [] H1 H2).
Defined.

End Provider.

(** ** What the two parsers return *)

Section ParserInvariants.
Local Open Scope N_scope.
Import netsh_wifi_provider command_executor.

Lemma lstrip_suffix (s : str) : lstrip s `suffix_of` s.
Proof.
  induction s as [|c s IH]; simpl; [done|].
  destruct (isspace c); [by apply suffix_cons_r | done].
Qed.

Lemma after_label_suffix (label s rest : str) :
  spec.after_label label s = Some rest → (58 :: rest) `suffix_of` s.
Proof.
  unfold spec.after_label.
  destruct (Re.lit_prefix true label s) as [r|] eqn:E; [|done].
  apply lit_prefix_suffix in E.
  destruct (lstrip r) as [|c rest'] eqn:L; [done|].
  destruct (N.eqb_spec c 58) as [->|]; [|done]. intros [= <-].
  etrans; [|exact E]. rewrite <- L. apply lstrip_suffix.
Qed.

Lemma label_colon_suffix (labels : list str) (s rest : str) :
  spec.label_colon labels s = Some rest → (58 :: rest) `suffix_of` s.
Proof.
  induction labels as [|label labels IH]; simpl; [done|].
  destruct (spec.after_label label s) as [rest'|] eqn:E; [|exact IH].
  intros [= <-]. by eapply after_label_suffix.
Qed.

(** A line that matches a label holds a colon, and what is captured is the
    end of the line after that colon. *)
Lemma last_label_suffix (line rest : str) :
  spec.last_label line = Some rest → (58 :: rest) `suffix_of` line.
Proof.
  induction line as [|c line IH]; cbn [spec.last_label].
  - apply label_colon_suffix.
  - destruct (spec.last_label line) as [rest'|].
    + intros [= <-]. by apply suffix_cons_r, IH.
    + apply label_colon_suffix.
Qed.

Lemma suffix_Forall (Q : N → Prop) (r s : str) :
  r `suffix_of` s → Forall Q s → Forall Q r.
Proof. intros [pre ->] H. by apply Forall_app in H as [_ H]. Qed.

Lemma parse_profiles_lines (output : str) :
  parse_profiles output = omap spec.profile_name_of (splitlines output).
Proof.
  unfold parse_profiles. rewrite list_profiles_loop_fold; [done|].
  eapply Forall_impl; [apply splitlines_free|].
  intros line. apply linebreak_free_no_LF.
Qed.

Lemma parse_profiles_without_colon (output : str) :
  Forall (fun c => c ≠ 58) output → parse_profiles output = [].
Proof.
  intros Ho. rewrite parse_profiles_lines.
  pose proof (splitlines_Forall _ output Ho) as Hl.
  induction (splitlines output) as [|line lines IH]; [done|].
  apply Forall_cons in Hl as [Hline Hl]. cbn [omap list_omap].
  unfold spec.profile_name_of at 1, spec.captured_name.
  destruct (spec.last_label line) as [rest|] eqn:E; [|by apply IH].
  apply last_label_suffix in E.
  apply (suffix_Forall _ _ _ E) in Hline. by apply Forall_cons in Hline as [? _].
Qed.

(** X5.  The labels and the values of the mapping that the field-block
    parser returns are trimmed and hold no line boundary, and the labels
    hold no colon. *)
Theorem parse_fields_are_trimmed (text k v : str) :
  _parse_netsh_output text !! k = Some v →
  strip k = k ∧ strip v = v
  ∧ Forall (fun c => c ≠ 58) k
  ∧ Forall (fun c => is_linebreak c = false) k
  ∧ Forall (fun c => is_linebreak c = false) v.
Proof.
  intros H. apply parse_lookup in H as (before & line & after & Hsplit & He & _).
  assert (Forall (fun c => is_linebreak c = false) line) as Hline.
  { pose proof (splitlines_free text) as Hall. rewrite Hsplit in Hall.
    apply Forall_app in Hall as [_ Hall]. by apply Forall_cons in Hall as [? _]. }
  unfold spec.field_entry in He.
  destruct (spec.split_colon line) as [[a b]|] eqn:E; [|done].
  injection He as <- <-.
  destruct (split_colon_Forall _ line a b Hline E) as (Ha & Hb & Hno).
  rewrite !strip_idemp. repeat split; try done; by apply strip_Forall.
Qed.

Lemma parse_fields_are_trimmed_witness :
  let text := py "   Key Content   :   a b : c   " in
  _parse_netsh_output text !! py "Key Content" = Some (py "a b : c")
  ∧ strip (py "Key Content") = py "Key Content" ∧ strip (py "a b : c") = py "a b : c"
  ∧ Forall (fun c => c ≠ 58) (py "Key Content")
  ∧ Forall (fun c => is_linebreak c = false) (py "Key Content")
  ∧ Forall (fun c => is_linebreak c = false) (py "a b : c").
Proof.
  intros text.
  assert (_parse_netsh_output text !! py "Key Content" = Some (py "a b : c")) as H
    by (vm_compute; reflexivity).
  split; [exact H|].
  exact (parse_fields_are_trimmed text (py "Key Content") (py "a b : c") H).
Defined.

(** X6.  The names that the profile-name parser returns are not empty, are
    trimmed, and hold no line boundary. *)
Theorem parse_profiles_names_are_clean (output n : str) :
  n ∈ parse_profiles output →
  n ≠ [] ∧ strip n = n ∧ Forall (fun c => is_linebreak c = false) n.
Proof.
  rewrite parse_profiles_lines. intros H.
  apply list_elem_of_omap in H as (line & Hline & Hn).
  assert (Forall (fun c => is_linebreak c = false) line) as Hfree.
  { pose proof (splitlines_free output) as Hall.
    by apply (proj1 (Forall_forall _ _) Hall line). }
  unfold spec.profile_name_of, spec.captured_name in Hn.
  destruct (spec.last_label line) as [rest|] eqn:E; [|done].
  cbn [fmap option_fmap option_map] in Hn.
  destruct (strip rest) as [|c n'] eqn:S; [done|]. injection Hn as <-.
  rewrite <- S. rewrite strip_idemp. split; [by rewrite S|]. split; [done|].
  apply strip_Forall. apply last_label_suffix in E.
  apply (suffix_Forall _ _ _ E) in Hfree. by apply Forall_cons in Hfree as [_ ?].
Qed.

Lemma parse_profiles_names_are_clean_witness :
  let output := py "    All User Profile     :    Home Net   " in
  py "Home Net" ∈ parse_profiles output
  ∧ py "Home Net" ≠ [] ∧ strip (py "Home Net") = py "Home Net"
  ∧ Forall (fun c => is_linebreak c = false) (py "Home Net").
Proof.
  intros output.
  assert (py "Home Net" ∈ parse_profiles output) as H.
  { replace (parse_profiles output) with [py "Home Net"] by (vm_compute; reflexivity).
    apply list_elem_of_here. }
  split; [exact H|].
  exact (parse_profiles_names_are_clean output (py "Home Net") H).
Defined.

(** X7.  When the listing is read and holds no colon, the empty listing
    among them, the scan returns the empty result, whatever the schedule and
    whatever the queries of profiles would answer. *)
Theorem scan_of_listing_without_colon (executor : CommandExecutor)
    (loc loc' : localization_manager.LocalizationManager) (sched : list nat) (output : str) :
  run executor [py "netsh"; py "wlan"; py "show"; py "profiles"] = Return output →
  Forall (fun c => c ≠ 58) output →
  scanner_service.scan
    {| scanner_service.provider := __init__ executor loc;
       scanner_service.localization_manager := loc' |} sched = Return [].
Proof.
  intros Hrun Hout. unfold scanner_service.scan.
  change (interfaces.list_profiles (scanner_service.provider _))
    with (list_profiles (__init__ executor loc)).
  unfold list_profiles. change (command_executor (__init__ executor loc)) with executor.
  rewrite Hrun. by rewrite (parse_profiles_without_colon output Hout).
Qed.

Lemma scan_of_listing_without_colon_witness :
  run sample2.silent [py "netsh"; py "wlan"; py "show"; py "profiles"] = Return []
  ∧ Forall (fun c => c ≠ 58) (@nil N)
  ∧ scanner_service.scan
      {| scanner_service.provider := __init__ sample2.silent sample.english;
         scanner_service.localization_manager := sample2.spanish |} [3; 1]%nat = Return [].
Proof.
  assert (run sample2.silent [py "netsh"; py "wlan"; py "show"; py "profiles"] = Return [])
    as H1 by reflexivity.
  assert (Forall (fun c => c ≠ 58) (@nil N)) as H2 by constructor.
  split; [exact H1|]. split; [exact H2|].
  exact (scan_of_listing_without_colon sample2.silent sample.english sample2.spanish
           [3; 1]%nat [] H1 H2).
Defined.

End ParserInvariants.

(** ** The rows of a scan *)

Section Rows.
Import interfaces scanner_service netsh_wifi_provider command_executor.

Local Abbreviation query p :=
  [py "netsh"; py "wlan"; py "show"; py "profile"; p; py "key=clear"].

(** The row of a listed entry is in the result. *)
Lemma row_in_scan {P : Type} `{WiFiProvider P} (self : WiFiScannerService P)
    (sched : list nat) (profiles : list str) (call : nat) (p : str) :
  interfaces.list_profiles (provider self) = Return profiles →
  profiles !! call = Some p →
  ∃ creds, scan self sched = Return creds ∧ spec.row self call p ∈ creds.
Proof.
  intros Hl Hp. eexists. split; [by apply scan_Return|]. by apply row_of_entry.
Qed.

(** X8.  The scan makes one row per entry of the listing, also when a name
    is listed more than once: the names of the result are the listed names
    up to order, repetitions included. *)
Theorem scan_one_row_per_listed_entry {P : Type} `{WiFiProvider P}
    (self : WiFiScannerService P) (sched : list nat) (profiles : list str) :
  interfaces.list_profiles (provider self) = Return profiles →
  ∃ creds, scan self sched = Return creds
    ∧ name <$> creds ≡ₚ profiles
    ∧ length creds = length profiles.
Proof.
  intros Hl. eexists. split; [by apply scan_Return|].
  pose proof (names_of_scan self sched profiles) as Hp.
  split; [done|]. rewrite <- (length_fmap name). by rewrite Hp.
Qed.

Lemma scan_one_row_per_listed_entry_witness :
  interfaces.list_profiles (provider sample2.service_of_two_interfaces)
    = Return [py "Cafe"; py "Cafe"]
  ∧ ∃ creds, scan sample2.service_of_two_interfaces [1]%nat = Return creds
      ∧ name <$> creds ≡ₚ [py "Cafe"; py "Cafe"]
      ∧ length creds = length [py "Cafe"; py "Cafe"].
Proof.
  assert (interfaces.list_profiles (provider sample2.service_of_two_interfaces)
          = Return [py "Cafe"; py "Cafe"]) as Hl by (vm_compute; reflexivity).
  split; [exact Hl|].
  exact (scan_one_row_per_listed_entry sample2.service_of_two_interfaces [1]%nat _ Hl).
Defined.

Lemma classify_open (self : NetshWiFiProvider) (d : gmap str str) (p : str) :
  spec.no_label spec.key_content_labels d →
  spec.security_absent_signal d ∨ spec.first_auth_open_signal d →
  classify self d p = Raise (OpenNetworkException p).
Proof.
  intros K H. rewrite classify_eq.
  apply first_present_None in K. rewrite K.
  destruct (security_absent spec.security_key_labels d) eqn:S; [done|].
  destruct H as [H|H].
  - apply security_absent_signal_spec in H. congruence.
  - apply first_auth_open_spec in H. by rewrite H.
Qed.

Lemma classify_admin (self : NetshWiFiProvider) (d : gmap str str) (p : str) :
  spec.no_label spec.key_content_labels d →
  ¬ spec.security_absent_signal d → ¬ spec.first_auth_open_signal d →
  classify self d p = Raise (AdminRightsRequiredError p (spec.admin_message self p)).
Proof.
  intros K HS HA. rewrite classify_eq.
  apply first_present_None in K. rewrite K.
  destruct (security_absent spec.security_key_labels d) eqn:S.
  - by apply security_absent_signal_spec in S.
  - pose proof (first_auth_open_spec d) as A.
    destruct (match next_key spec.authentication_labels d with
              | Some ((_ :: _) as k) => any_in spec.open_values (d !!! k)
              | _ => false
              end); [|done].
    exfalso. by apply HA, A.
Qed.

Lemma netsh_row_in_scan (executor : CommandExecutor)
    (loc loc' : localization_manager.LocalizationManager) (sched : list nat)
    (profiles : list str) (p : str) :
  list_profiles (__init__ executor loc) = Return profiles → p ∈ profiles →
  ∃ creds,
    scan {| provider := __init__ executor loc;
            scanner_service.localization_manager := loc' |} sched = Return creds
    ∧ credential_of loc' (get_password (__init__ executor loc) p) p ∈ creds.
Proof.
  intros Hl Hp. apply list_elem_of_lookup in Hp as [call Hp].
  exact (row_in_scan (H := NetshWiFiProvider_provider)
           {| provider := __init__ executor loc;
              scanner_service.localization_manager := loc' |} sched profiles call p Hl Hp).
Qed.

(** X9.  The row of an open network: when the query of a listed profile is
    read, without key-content label and with a signal of an open network,
    the result of the scan holds the row of the profile with the
    open-network text of the localization manager of the service. *)
Theorem scan_row_of_open_network (executor : CommandExecutor)
    (loc loc' : localization_manager.LocalizationManager) (sched : list nat)
    (profiles : list str) (p output : str) :
  list_profiles (__init__ executor loc) = Return profiles →
  p ∈ profiles →
  run executor (query p) = Return output →
  spec.no_label spec.key_content_labels (_parse_netsh_output output) →
  spec.security_absent_signal (_parse_netsh_output output)
  ∨ spec.first_auth_open_signal (_parse_netsh_output output) →
  ∃ creds,
    scan {| provider := __init__ executor loc;
            scanner_service.localization_manager := loc' |} sched = Return creds
    ∧ {| name := p;
         password := Some (localization_manager.get_string loc' (py "status_open_network") []);
         interface := py "WiFi" |} ∈ creds.
Proof.
  intros Hl Hp Hrun K O.
  destruct (netsh_row_in_scan executor loc loc' sched profiles p Hl Hp)
    as (creds & Hs & Hrow).
  exists creds. split; [done|].
  unfold get_password in Hrow.
  change (command_executor (__init__ executor loc)) with executor in Hrow.
  rewrite Hrun, (classify_open _ _ p K O) in Hrow. exact Hrow.
Qed.

Lemma scan_row_of_open_network_witness :
  let output := py "    Autenticación             : Abierta
    Clave de seguridad            : Ausente" in
  list_profiles (__init__ sample.executor sample.english)
    = Return [py "MiRed1"; py "MiRed Espacio"; py "Casa"]
  ∧ py "MiRed1" ∈ [py "MiRed1"; py "MiRed Espacio"; py "Casa"]
  ∧ run sample.executor (query (py "MiRed1")) = Return output
  ∧ spec.no_label spec.key_content_labels (_parse_netsh_output output)
  ∧ (spec.security_absent_signal (_parse_netsh_output output)
     ∨ spec.first_auth_open_signal (_parse_netsh_output output))
  ∧ ∃ creds,
      scan {| provider := __init__ sample.executor sample.english;
              scanner_service.localization_manager := sample2.spanish |} [0; 1]%nat
      = Return creds
      ∧ {| name := py "MiRed1";
           password :=
             Some (localization_manager.get_string sample2.spanish
                     (py "status_open_network") []);
           interface := py "WiFi" |} ∈ creds.
Proof.
  intros output.
  assert (list_profiles (__init__ sample.executor sample.english)
          = Return [py "MiRed1"; py "MiRed Espacio"; py "Casa"]) as Hl
    by (vm_compute; reflexivity).
  assert (py "MiRed1" ∈ [py "MiRed1"; py "MiRed Espacio"; py "Casa"]) as Hp
    by apply list_elem_of_here.
  assert (run sample.executor (query (py "MiRed1")) = Return output) as Hrun
    by (vm_compute; reflexivity).
  assert (spec.no_label spec.key_content_labels (_parse_netsh_output output)) as K
    by (apply first_present_None; vm_compute; reflexivity).
  assert (spec.security_absent_signal (_parse_netsh_output output)
          ∨ spec.first_auth_open_signal (_parse_netsh_output output)) as O
    by (left; apply security_absent_signal_spec; vm_compute; reflexivity).
  split; [exact Hl|]. split; [exact Hp|]. split; [exact Hrun|].
  split; [exact K|]. split; [exact O|].
  exact (scan_row_of_open_network sample.executor sample.english sample2.spanish
           [0; 1]%nat _ _ _ Hl Hp Hrun K O).
Defined.

(** X10.  The row of a lookup without administrator rights: when the query
    of a listed profile is read, without key-content label and without
    signal of an open network, the row of the profile holds the message that
    the localization manager of the provider makes for that profile; the
    localization manager of the service plays no part in it. *)
Theorem scan_row_of_admin_rights_required (executor : CommandExecutor)
    (loc loc' : localization_manager.LocalizationManager) (sched : list nat)
    (profiles : list str) (p output : str) :
  list_profiles (__init__ executor loc) = Return profiles →
  p ∈ profiles →
  run executor (query p) = Return output →
  spec.no_label spec.key_content_labels (_parse_netsh_output output) →
  ¬ spec.security_absent_signal (_parse_netsh_output output) →
  ¬ spec.first_auth_open_signal (_parse_netsh_output output) →
  ∃ creds,
    scan {| provider := __init__ executor loc;
            scanner_service.localization_manager := loc' |} sched = Return creds
    ∧ {| name := p;
         password :=
           Some (localization_manager.get_string loc
                   (py "error_password_not_found_admin_required") [(py "profile_name", p)]);
         interface := py "WiFi" |} ∈ creds.
Proof.
  intros Hl Hp Hrun K HS HA.
  destruct (netsh_row_in_scan executor loc loc' sched profiles p Hl Hp)
    as (creds & Hs & Hrow).
  exists creds. split; [done|].
  unfold get_password in Hrow.
  change (command_executor (__init__ executor loc)) with executor in Hrow.
  rewrite Hrun, (classify_admin _ _ p K HS HA) in Hrow. exact Hrow.
Qed.

Lemma scan_row_of_admin_rights_required_witness :
  let executor := {| run := sample2.without_rights |} in
  let output := py "    Authentication         : WPA2-Personal
    Security key           : Present" in
  list_profiles (__init__ executor sample.english) = Return [py "Home"]
  ∧ py "Home" ∈ [py "Home"]
  ∧ run executor (query (py "Home")) = Return output
  ∧ spec.no_label spec.key_content_labels (_parse_netsh_output output)
  ∧ ¬ spec.security_absent_signal (_parse_netsh_output output)
  ∧ ¬ spec.first_auth_open_signal (_parse_netsh_output output)
  ∧ ∃ creds,
      scan {| provider := __init__ executor sample.english;
              scanner_service.localization_manager := sample2.spanish |} [] = Return creds
      ∧ {| name := py "Home";
           password :=
             Some (localization_manager.get_string sample.english
                     (py "error_password_not_found_admin_required")
                     [(py "profile_name", py "Home")]);
           interface := py "WiFi" |} ∈ creds.
Proof.
  intros executor output.
  assert (list_profiles (__init__ executor sample.english) = Return [py "Home"]) as Hl
    by (vm_compute; reflexivity).
  assert (py "Home" ∈ [py "Home"]) as Hp by apply list_elem_of_here.
  assert (run executor (query (py "Home")) = Return output) as Hrun
    by (vm_compute; reflexivity).
  assert (spec.no_label spec.key_content_labels (_parse_netsh_output output)) as K
    by (apply first_present_None; vm_compute; reflexivity).
  assert (¬ spec.security_absent_signal (_parse_netsh_output output)) as HS
    by (intros H; apply security_absent_signal_spec in H; vm_compute in H; discriminate H).
  assert (¬ spec.first_auth_open_signal (_parse_netsh_output output)) as HA
    by (intros H; apply first_auth_open_spec in H; vm_compute in H; discriminate H).
  split; [exact Hl|]. split; [exact Hp|]. split; [exact Hrun|].
  split; [exact K|]. split; [exact HS|]. split; [exact HA|].
  exact (scan_row_of_admin_rights_required executor sample.english sample2.spanish
           [] _ _ _ Hl Hp Hrun K HS HA).
Defined.

(** X11.  The row of an unexpected failure: when the command runner raises,
    for the query of a listed profile, an exception that is none of the
    program's own (the utility cannot be spawned, say), the scan still
    returns, and the row of the profile holds the general-error text of the
    localization manager of the service. *)
Theorem scan_row_of_unexpected_exception (executor : CommandExecutor)
    (loc loc' : localization_manager.LocalizationManager) (sched : list nat)
    (profiles : list str) (p type_name : str) :
  list_profiles (__init__ executor loc) = Return profiles →
  p ∈ profiles →
  run executor (query p) = Raise (OtherException type_name) →
  ∃ creds,
    scan {| provider := __init__ executor loc;
            scanner_service.localization_manager := loc' |} sched = Return creds
    ∧ {| name := p;
         password := Some (localization_manager.get_string loc' (py "status_general_error") []);
         interface := py "WiFi" |} ∈ creds.
Proof.
  intros Hl Hp Hrun.
  destruct (netsh_row_in_scan executor loc loc' sched profiles p Hl Hp)
    as (creds & Hs & Hrow).
  exists creds. split; [done|].
  unfold get_password in Hrow.
  change (command_executor (__init__ executor loc)) with executor in Hrow.
  rewrite Hrun in Hrow. exact Hrow.
Qed.

Lemma scan_row_of_unexpected_exception_witness :
  list_profiles (__init__ sample2.executor sample.english)
    = Return [py "Home"; py "Office"]
  ∧ py "Office" ∈ [py "Home"; py "Office"]
  ∧ run sample2.executor (query (py "Office")) = Raise (OtherException (py "FileNotFoundError"))
  ∧ ∃ creds,
      scan {| provider := __init__ sample2.executor sample.english;
              scanner_service.localization_manager := sample2.spanish |} [1]%nat
      = Return creds
      ∧ {| name := py "Office";
           password :=
             Some (localization_manager.get_string sample2.spanish
                     (py "status_general_error") []);
           interface := py "WiFi" |} ∈ creds.
Proof.
  assert (list_profiles (__init__ sample2.executor sample.english)
          = Return [py "Home"; py "Office"]) as Hl by (vm_compute; reflexivity).
  assert (py "Office" ∈ [py "Home"; py "Office"]) as Hp
    by apply list_elem_of_further, list_elem_of_here.
  assert (run sample2.executor (query (py "Office"))
          = Raise (OtherException (py "FileNotFoundError"))) as Hrun
    by (vm_compute; reflexivity).
  split; [exact Hl|]. split; [exact Hp|]. split; [exact Hrun|].
  exact (scan_row_of_unexpected_exception sample2.executor sample.english sample2.spanish
           [1]%nat _ _ _ Hl Hp Hrun).
Defined.

End Rows.

(** ** The display of the credentials *)

Section Display.
Local Open Scope N_scope.
Import report_service.

Lemma format_credentials_concat (credentials : list NetworkCredential) :
  format_credentials_to_string credentials = concat (credential_line <$> credentials).
Proof. by destruct credentials. Qed.

Lemma format_credentials_append (a b : list NetworkCredential) :
  format_credentials_to_string (a ++ b)
  = format_credentials_to_string a ++ format_credentials_to_string b.
Proof. by rewrite !format_credentials_concat, fmap_app, concat_app. Qed.

(** X12.  The display of two lists put end to end is the display of the
    first followed by the display of the second; the empty list, which the
    code treats apart, is displayed as the empty text. *)
Theorem format_credentials_app (a b : list NetworkCredential) :
  format_credentials_to_string [] = []
  ∧ format_credentials_to_string (a ++ b)
    = format_credentials_to_string a ++ format_credentials_to_string b.
Proof.
  split; [done|].
  destruct a as [|c a]; [done|]. destruct b as [|d b]; [by rewrite !app_nil_r|].
  change (format_credentials_to_string ((c :: a) ++ d :: b))
    with (concat (credential_line <$> (c :: a) ++ d :: b)).
  change (format_credentials_to_string (c :: a))
    with (concat (credential_line <$> c :: a)).
  change (format_credentials_to_string (d :: b))
    with (concat (credential_line <$> d :: b)).
  by rewrite fmap_app, concat_app.
Qed.

Lemma line_in_display (c : NetworkCredential) (credentials : list NetworkCredential) :
  c ∈ credentials →
  spec.occurs_in (credential_line c) (format_credentials_to_string credentials).
Proof.
  intros Hc. apply list_elem_of_split in Hc as (l1 & l2 & ->).
  exists (format_credentials_to_string l1), (format_credentials_to_string l2).
  rewrite format_credentials_append.
  change (c :: l2) with ([c] ++ l2). rewrite format_credentials_append.
  f_equal. f_equal. unfold format_credentials_to_string. simpl. by rewrite app_nil_r.
Qed.

(** X13.  The display does not tell a credential without password from a
    credential whose password is the text "None", and it does not show the
    interface. *)
Theorem format_credentials_None_as_text (l1 l2 : list NetworkCredential) (n i i' : str) :
  format_credentials_to_string
    (l1 ++ {| name := n; password := None; interface := i |} :: l2)
  = format_credentials_to_string
      (l1 ++ {| name := n; password := Some (py "None"); interface := i' |} :: l2).
Proof.
  rewrite !format_credentials_append.
  change (?c :: l2) with ([c] ++ l2). by rewrite !format_credentials_append.
Qed.

Lemma splitlines_from_line (cur l rest : str) :
  Forall (fun c => is_linebreak c = false) l →
  splitlines_from cur (l ++ 10 :: rest) = (rev cur ++ l) :: splitlines_from [] rest.
Proof.
  revert cur. induction l as [|c l IH]; intros cur Hl.
  - simpl. by rewrite app_nil_r.
  - apply Forall_cons in Hl as [Hc Hl]. simpl. rewrite Hc, IH by done.
    simpl. by rewrite <- app_assoc.
Qed.

(** X14.  When the names and the passwords hold no line boundary, the
    display has exactly one line per credential, in the order of the list:
    the name, " = ", and the password or "None". *)
Theorem format_credentials_lines (credentials : list NetworkCredential) :
  Forall (fun c => Forall (fun x => is_linebreak x = false) (name c)
                   ∧ Forall (fun x => is_linebreak x = false)
                       (str_of_password (password c))) credentials →
  splitlines (format_credentials_to_string credentials)
  = (fun c => name c ++ py " = " ++ str_of_password (password c)) <$> credentials.
Proof.
  rewrite format_credentials_concat. unfold splitlines.
  induction credentials as [|c l IH]; intros Hall; [done|].
  apply Forall_cons in Hall as [[Hn Hp] Hall].
  rewrite !fmap_cons. cbn [concat]. unfold credential_line at 1.
  set (rest := concat (credential_line <$> l)) in *.
  replace ((name c ++ py " = " ++ str_of_password (password c) ++ [10]) ++ rest)
    with ((name c ++ py " = " ++ str_of_password (password c)) ++ 10 :: rest)
    by (by rewrite <- !app_assoc).
  rewrite splitlines_from_line.
  - f_equal. by apply IH.
  - apply Forall_app. split; [done|]. apply Forall_app. split; [|done].
    by repeat constructor.
Qed.

Lemma format_credentials_lines_witness :
  let credentials :=
    [ {| name := py "Casa"; password := Some (py "clave 1"); interface := py "WiFi" |};
      {| name := py "MiRed Espacio"; password := None; interface := py "WiFi" |} ] in
  Forall (fun c => Forall (fun x => is_linebreak x = false) (name c)
                   ∧ Forall (fun x => is_linebreak x = false)
                       (str_of_password (password c))) credentials
  ∧ splitlines (format_credentials_to_string credentials)
    = (fun c => name c ++ py " = " ++ str_of_password (password c)) <$> credentials.
Proof.
  intros credentials.
  assert (Forall (fun c => Forall (fun x => is_linebreak x = false) (name c)
                   ∧ Forall (fun x => is_linebreak x = false)
                       (str_of_password (password c))) credentials) as H
    by (repeat constructor).
  split; [exact H|].
  exact (format_credentials_lines credentials H).
Defined.

End Display.

Section DisplayOfScan.
Import scanner_service netsh_wifi_provider command_executor report_service.

Local Abbreviation query p :=
  [py "netsh"; py "wlan"; py "show"; py "profile"; p; py "key=clear"].

(** X15.  What the user sees of a query that exits with a status other than
    zero: the display of the result of the scan holds, for that profile, the
    line made of its name, " = " and "None". *)
Theorem failed_query_is_displayed_as_None (executor : CommandExecutor)
    (loc loc' : localization_manager.LocalizationManager) (sched : list nat)
    (profiles : list str) (p : str) returncode cmd stdout stderr :
  list_profiles (__init__ executor loc) = Return profiles →
  p ∈ profiles →
  run executor (query p) = Raise (CalledProcessError returncode cmd stdout stderr) →
  ∃ creds,
    scan {| provider := __init__ executor loc;
            scanner_service.localization_manager := loc' |} sched = Return creds
    ∧ spec.occurs_in (p ++ py " = None" ++ [10%N]) (format_credentials_to_string creds).
Proof.
  intros Hl Hp Hrun.
  destruct (netsh_row_in_scan executor loc loc' sched profiles p Hl Hp)
    as (creds & Hs & Hrow).
  exists creds. split; [done|].
  unfold get_password in Hrow.
  change (command_executor (__init__ executor loc)) with executor in Hrow.
  rewrite Hrun in Hrow.
  apply line_in_display in Hrow. exact Hrow.
Qed.

Lemma failed_query_is_displayed_as_None_witness :
  list_profiles (__init__ sample.executor sample.english)
    = Return [py "MiRed1"; py "MiRed Espacio"; py "Casa"]
  ∧ py "MiRed Espacio" ∈ [py "MiRed1"; py "MiRed Espacio"; py "Casa"]
  ∧ run sample.executor (query (py "MiRed Espacio"))
    = Raise (CalledProcessError 1 (query (py "MiRed Espacio"))
               (py "Profile is not found on the system.") [])
  ∧ ∃ creds,
      scan sample.service [1]%nat = Return creds
      ∧ spec.occurs_in (py "MiRed Espacio" ++ py " = None" ++ [10%N])
          (format_credentials_to_string creds).
Proof.
  assert (list_profiles (__init__ sample.executor sample.english)
          = Return [py "MiRed1"; py "MiRed Espacio"; py "Casa"]) as Hl
    by (vm_compute; reflexivity).
  assert (py "MiRed Espacio" ∈ [py "MiRed1"; py "MiRed Espacio"; py "Casa"]) as Hp
    by apply list_elem_of_further, list_elem_of_here.
  assert (run sample.executor (query (py "MiRed Espacio"))
          = Raise (CalledProcessError 1 (query (py "MiRed Espacio"))
                     (py "Profile is not found on the system.") [])) as Hrun
    by (vm_compute; reflexivity).
  split; [exact Hl|]. split; [exact Hp|]. split; [exact Hrun|].
  exact (failed_query_is_displayed_as_None sample.executor sample.english sample.english
           [1]%nat _ _ _ _ _ _ Hl Hp Hrun).
Defined.

End DisplayOfScan.

(** ** The controller *)

Section ControllerFacts.
Import controller.
Context {P : Type} `{interfaces.WiFiProvider P}.
Variable on_success : list NetworkCredential → result unit.
Variable on_error : str → result unit.

Lemma scan_worker_cleared (self : Controller P) (sched : list nat) :
  is_scanning (after (_scan_worker self sched on_success on_error)) = false.
Proof.
  unfold _scan_worker.
  destruct (scanner_service.scan (scanner_service self) sched) as [creds|x]; [|done].
  by destruct (on_success creds).
Qed.

(** X16.  The worker always ends with [is_scanning] cleared and starts no
    other worker.  [on_success] is called exactly when the scan returns, on
    its result; [on_error] is called, with the text of the key
    "error_occurred_during_scan", exactly when the scan raises or
    [on_success] raises; and an exception leaves the worker only when
    [on_error] raises it. *)
Theorem scan_worker_reports_and_clears (self : Controller P) (sched : list nat) :
  let e := _scan_worker self sched on_success on_error in
  let message :=
    localization_manager.get_string (localization_manager self)
      (py "error_occurred_during_scan") [] in
  is_scanning (after e) = false
  ∧ started e = false
  ∧ (∀ creds, on_success_called creds ∈ calls e
              ↔ scanner_service.scan (scanner_service self) sched = Return creds)
  ∧ (∀ m, on_error_called m ∈ calls e
          ↔ m = message
            ∧ ((∃ x, scanner_service.scan (scanner_service self) sched = Raise x)
               ∨ (∃ creds x, scanner_service.scan (scanner_service self) sched = Return creds
                             ∧ on_success creds = Raise x)))
  ∧ (∀ x, raised e = Some x → on_error message = Raise x).
Proof.
  intros e message. subst e. unfold _scan_worker. fold message.
  assert (∀ y, raised_by (on_error message) = Some y → on_error message = Raise y) as R.
  { intros y. unfold raised_by. destruct (on_error message); [done|]. by intros [= ->]. }
  destruct (scanner_service.scan (scanner_service self) sched) as [creds|x] eqn:S.
  - destruct (on_success creds) as [u|x] eqn:C;
      cbn [after calls started raised is_scanning set_is_scanning].
    + split; [done|]. split; [done|]. split; [|split; [|done]].
      * intros c. rewrite elem_of_cons, elem_of_nil. split.
        -- by intros [[= ->]|[]].
        -- intros [= ->]. by left.
      * intros m. rewrite elem_of_cons, elem_of_nil. split.
        -- by intros [?|[]].
        -- intros (-> & [[y Hy]|(c & y & Hc & Hy)]); [done|].
           injection Hc as <-. congruence.
    + split; [done|]. split; [done|]. split; [|split; [|exact R]].
      * intros c. rewrite !elem_of_cons, elem_of_nil. split.
        -- by intros [[= ->]|[?|[]]].
        -- intros [= ->]. by left.
      * intros m. rewrite !elem_of_cons, elem_of_nil. split.
        -- intros [?|[[= ->]|[]]]; [done|]. split; [done|]. right. by exists creds, x.
        -- intros (-> & _). right. by left.
  - cbn [after calls started raised is_scanning set_is_scanning].
    split; [done|]. split; [done|]. split; [|split; [|exact R]].
    + intros c. rewrite elem_of_cons, elem_of_nil. split; [by intros [?|[]] | done].
    + intros m. rewrite elem_of_cons, elem_of_nil. split.
      * intros [[= ->]|[]]. split; [done|]. left. by exists x.
      * intros (-> & _). by left.
Qed.

Lemma step_invariant (st : Controller P * nat) (ev : event) :
  (st.2 ≤ 1 ∧ (is_scanning st.1 = true ↔ st.2 = 1)) →
  ((step on_success on_error st ev).2 ≤ 1
   ∧ (is_scanning (step on_success on_error st ev).1 = true
      ↔ (step on_success on_error st ev).2 = 1)).
Proof.
  destruct st as [self live]. cbn [fst snd]. intros [Hle Hiff].
  destruct ev as [|sched]; cbn [step].
  - unfold start_scan_thread.
    destruct (is_scanning self) eqn:S; cbn [after started fst snd]; [by rewrite S|].
    destruct (is_admin (validator self)); cbn [negb after started fst snd].
    + assert (live ≠ 1) as Hne
        by (intros ->; destruct Hiff as [_ Hb]; specialize (Hb eq_refl); congruence).
      assert (live = 0) as -> by lia.
      cbn [is_scanning set_is_scanning]. done.
    + by rewrite S.
  - destruct live as [|live']; cbn [fst snd]; [done|].
    assert (live' = 0) as -> by lia.
    pose proof (scan_worker_cleared self sched) as C. split; [lia|].
    rewrite C. done.
Qed.

(** X17.  One scan at a time: in a session that begins with no scan under
    way, whatever the requests and the ends of workers, at most one worker
    thread is alive, and [is_scanning] is set exactly while one is. *)
Theorem session_has_at_most_one_worker (self : Controller P) (events : list event) :
  is_scanning self = false →
  (session on_success on_error self events).2 ≤ 1
  ∧ (is_scanning (session on_success on_error self events).1 = true
     ↔ (session on_success on_error self events).2 = 1).
Proof.
  intros Hs. unfold session.
  assert ((self, 0).2 ≤ 1 ∧ (is_scanning (self, 0).1 = true ↔ (self, 0).2 = 1)) as Hinv
    by (cbn [fst snd]; rewrite Hs; split; [lia | done]).
  revert Hinv. generalize (self, 0). induction events as [|ev events IH]; intros st Hinv.
  - exact Hinv.
  - cbn [foldl]. apply IH. by apply step_invariant.
Qed.

(** X18.  Without administrator rights no scan ever starts: a session of a
    controller whose validator denies them leaves the controller as it was,
    with no worker thread. *)
Theorem session_without_admin_rights_never_scans (self : Controller P)
    (events : list event) :
  is_admin (validator self) = false →
  is_scanning self = false →
  session on_success on_error self events = (self, 0).
Proof.
  intros Ha Hs. unfold session.
  induction events as [|ev events IH]; [done|]. cbn [foldl].
  replace (step on_success on_error (self, 0) ev) with (self, 0); [exact IH|].
  destruct ev as [|sched]; cbn [step]; [|done].
  unfold start_scan_thread. rewrite Hs, Ha. done.
Qed.

End ControllerFacts.

Lemma session_has_at_most_one_worker_witness :
  let events :=
    [controller.Request; controller.Request; controller.WorkerEnds [1]%nat;
     controller.WorkerEnds []; controller.Request] in
  controller.is_scanning (sample2.controller_of true) = false
  ∧ (controller.session sample2.on_success sample2.on_error
       (sample2.controller_of true) events).2 ≤ 1
  ∧ (controller.is_scanning
       (controller.session sample2.on_success sample2.on_error
          (sample2.controller_of true) events).1 = true
     ↔ (controller.session sample2.on_success sample2.on_error
          (sample2.controller_of true) events).2 = 1).
Proof.
  intros events.
  assert (controller.is_scanning (sample2.controller_of true) = false) as H
    by reflexivity.
  split; [exact H|].
  exact (session_has_at_most_one_worker sample2.on_success sample2.on_error
           (sample2.controller_of true) events H).
Defined.

Lemma session_without_admin_rights_never_scans_witness :
  let events := [controller.Request; controller.WorkerEnds []; controller.Request] in
  controller.is_admin (controller.validator (sample2.controller_of false)) = false
  ∧ controller.is_scanning (sample2.controller_of false) = false
  ∧ controller.session sample2.on_success sample2.on_error
      (sample2.controller_of false) events
    = (sample2.controller_of false, 0).
Proof.
  intros events.
  assert (controller.is_admin (controller.validator (sample2.controller_of false)) = false)
    as H1 by reflexivity.
  assert (controller.is_scanning (sample2.controller_of false) = false) as H2
    by reflexivity.
  split; [exact H1|]. split; [exact H2|].
  exact (session_without_admin_rights_never_scans sample2.on_success sample2.on_error
           (sample2.controller_of false) events H1 H2).
Defined.

